(** * CyberTracker CTX builder: file-set matching and archive staging

    A shallow embedding of [cybertracker_ctx_builder.py] (class [CTXBuilder])
    and the properties of its directory scan and of its build operation.

    Conventions of the embedding.
    - File names are [string]s; [str.lower] is modelled on the ASCII letters
      (a character outside [A-Z] is its own lower case).
    - A [Path] is a parent directory and a final component.  [pathlib]
      compares paths exactly on POSIX and after case folding on Windows: the
      [flavour] argument selects which.
    - The file system is a finite map from paths to contents, with exact
      names, together with the set of directories the build creates and
      removes, and the process's working directory.
    - What the program cannot decide is an input of the model: the order in
      which [iterdir] yields entries, the name [tempfile] picks, what the
      [makecab] subprocess does, the answer to the overwrite dialog, and
      whether the platform removes a directory that is the working
      directory of the process (POSIX does, Windows does not). *)

From Stdlib Require Import ZArith Ascii String Lia.
From stdpp Require Import base decidable option list strings countable gmap pretty.

Local Open Scope string_scope.
Local Open Scope list_scope.
Local Open Scope Z_scope.

(** ** Strings, as the Python code uses them *)

Module Str.

(** [c.lower()] for one character. *)
Definition lower_ascii (c : ascii) : ascii :=
  let n := nat_of_ascii c in
  if ((65 <=? n) && (n <=? 90))%nat then ascii_of_nat (n + 32) else c.

(** [s.lower()]. *)
Fixpoint lower (s : string) : string :=
  match s with
  | EmptyString => EmptyString
  | String c s' => String (lower_ascii c) (lower s')
  end.

(** [s.endswith(suffix)]: some tail of [s] is [suffix]. *)
Fixpoint endswith (s suffix : string) : bool :=
  String.eqb s suffix ||
  match s with
  | EmptyString => false
  | String _ s' => endswith s' suffix
  end.

(** [s.rfind(c)]: the highest index of [c] in [s], or [-1]. *)
Fixpoint rfind (s : string) (c : ascii) : Z :=
  match s with
  | EmptyString => -1
  | String a s' =>
      let r := rfind s' c in
      if 0 <=? r then r + 1
      else if Ascii.eqb a c then 0 else -1
  end.

(** [s[:i]] for [0 <= i]. *)
Definition slice_to (s : string) (i : Z) : string :=
  substring 0 (Z.to_nat i) s.

Definition len (s : string) : Z := Z.of_nat (String.length s).

(** [c in s]. *)
Fixpoint contains (s : string) (c : ascii) : bool :=
  match s with
  | EmptyString => false
  | String a s' => Ascii.eqb a c || contains s' c
  end.

(** [s.splitlines()] for the line break [\n]. *)
Fixpoint lines (s : string) : list string :=
  match s with
  | EmptyString => []
  | String a s' =>
      if Ascii.eqb a (ascii_of_nat 10) then EmptyString :: lines s'
      else
        match lines s' with
        | [] => [String a EmptyString]
        | l :: ls => String a l :: ls
        end
  end.

(** The line break and the double quote of the directive text. *)
Definition nl : string := String (ascii_of_nat 10) EmptyString.
Definition dquote : string := String (ascii_of_nat 34) EmptyString.

End Str.

(** ** Paths *)

Inductive flavour := Posix | Windows.

Record Path := mkPath { parent : string; pname : string }.

#[global] Instance Path_eq_dec : EqDecision Path.
Proof. solve_decision. Defined.

#[global] Instance Path_countable : Countable Path.
Proof.
  refine (inj_countable' (fun p => (parent p, pname p))
                         (fun q => mkPath q.1 q.2) _).
  by intros [??].
Defined.

(** [directory / name]. *)
Definition joinpath (directory name : string) : Path :=
  mkPath directory name.

(** [PurePath.stem]: the final component without its last suffix
    ([name[:i]] for [i = name.rfind('.')] when [0 < i < len(name) - 1],
    the whole name otherwise). *)
Definition stem (p : Path) : string :=
  let name := pname p in
  let i := Str.rfind name "." in
  if (0 <? i) && (i <? Str.len name - 1) then Str.slice_to name i else name.

(** The key under which [pathlib] compares and hashes a path: the path
    itself on POSIX, the case-folded path on Windows. *)
Definition normcase (fl : flavour) (p : Path) : Path :=
  match fl with
  | Posix => p
  | Windows => mkPath (Str.lower (parent p)) (Str.lower (pname p))
  end.

(** ** The application state *)

(** One entry of [self.file_sets]: the dictionary with the keys
    ['name'], ['xml'], ['txt'], ['dat']. *)
Record FileSet := mkFileSet {
  name : string;
  xml : Path;
  txt : Path;
  dat : Path
}.

#[global] Instance FileSet_eq_dec : EqDecision FileSet.
Proof. solve_decision. Defined.

(** The message boxes the program opens, in order. *)
Inductive dialog :=
  | ShowError (title message : string)
  | ShowInfo (title message : string)
  | AskYesNo (title message : string) (answer : bool).

(** The fields of [CTXBuilder] and the widgets it writes to. *)
Record App := mkApp {
  selected_directory : string;
  file_sets : list FileSet;
  selected_set_index : option nat;
  sets_listbox : list string;
  info_label : string;
  status_label : string;
  build_btn : bool;            (* [true]: state "normal"; [false]: "disabled" *)
  dialogs : list dialog
}.

(** ** Set matcher: [scan_for_file_sets] *)

Section Scan.

Variable fl : flavour.

(** One directory entry as [iterdir] yields it: its name and the answer
    of [is_file()]. *)
Definition DirEntry : Type := string * bool.

(** The body of the classifying loop (source lines 108-116). *)
Definition classify_step (directory : string)
    (acc : list Path * list Path * list Path) (e : DirEntry)
    : list Path * list Path * list Path :=
  let '(xml_files, txt_files, dat_files) := acc in
  let file := joinpath directory e.1 in
  if e.2 then
    let lower_name := Str.lower (pname file) in
    if Str.endswith lower_name ".xml" then
      (xml_files ++ [file], txt_files, dat_files)
    else if Str.endswith lower_name ".txt" then
      (xml_files, txt_files ++ [file], dat_files)
    else if Str.endswith lower_name ".dat" then
      (xml_files, txt_files, dat_files ++ [file])
    else acc
  else acc.

Definition classify (directory : string) (listing : list DirEntry)
    : list Path * list Path * list Path :=
  foldl (classify_step directory) ([], [], []) listing.

(** The inner search loops (lines 130-138): the first candidate whose
    stem equals [base_name] up to case. *)
Definition find_match (base_name : string) (candidates : list Path)
    : option Path :=
  List.find
    (fun f => String.eqb (Str.lower (stem f)) (Str.lower base_name))
    candidates.

(** The body of the matching loop (lines 121-147). *)
Definition match_step (txt_files dat_files : list Path)
    (acc : list FileSet * gset Path) (xml_file : Path)
    : list FileSet * gset Path :=
  let '(sets, processed_files) := acc in
  if bool_decide (normcase fl xml_file ∈ processed_files) then acc
  else
    let base_name := stem xml_file in
    match find_match base_name txt_files, find_match base_name dat_files with
    | Some txt_match, Some dat_match =>
        (sets ++ [mkFileSet base_name xml_file txt_match dat_match],
         processed_files ∪ {[ normcase fl xml_file ]}
                         ∪ {[ normcase fl txt_match ]}
                         ∪ {[ normcase fl dat_match ]})
    | _, _ => acc
    end.

Definition match_loop (xml_files txt_files dat_files : list Path)
    (acc : list FileSet * gset Path) : list FileSet * gset Path :=
  foldl (match_step txt_files dat_files) acc xml_files.

(** The file sets the scan of a directory finds. *)
Definition matched_sets (directory : string) (listing : list DirEntry)
    : list FileSet :=
  let '(xml_files, txt_files, dat_files) := classify directory listing in
  (match_loop xml_files txt_files dat_files ([], ∅)).1.

End Scan.


(** The text of a list-box row (line 152). *)
Definition display_text (file_set : FileSet) : string :=
  name file_set +:+ " (.xml, .txt, .dat)".

(** [scan_for_file_sets]: the list of file sets and the list box are
    rebuilt from nothing; the selected index is left as it was. *)
Definition scan_for_file_sets (fl : flavour) (directory : string)
    (listing : list DirEntry) (self : App) : App :=
  let sets := matched_sets fl directory listing in
  match sets with
  | _ :: _ =>
      let n := pretty (length sets) in
      mkApp (selected_directory self) sets (selected_set_index self)
            (display_text <$> sets)
            ("Found " +:+ n +:+ " complete file set(s)")
            ("Found " +:+ n +:+ " file set(s). Select one to build.")
            (build_btn self) (dialogs self)
  | [] =>
      mkApp (selected_directory self) [] (selected_set_index self) []
            "No complete file sets found (need matching .xml, .txt, .dat files)"
            "No complete file sets found in this directory"
            false (dialogs self)
  end.

(** [browse_directory]: [answer] is what the directory dialog returns
    (the empty string when it is dismissed). *)
Definition browse_directory (fl : flavour) (answer : string)
    (listing : list DirEntry) (self : App) : App :=
  if String.eqb answer "" then self
  else
    scan_for_file_sets fl answer listing
      (mkApp answer (file_sets self) (selected_set_index self)
             (sets_listbox self) (info_label self) (status_label self)
             (build_btn self) (dialogs self)).

(** ** Exceptions and results *)

Inductive exn :=
  | FileNotFoundError (msg : string)
  | CalledProcessError (stderr : string)
  | IndexError
  | OtherError (msg : string).

(** [str(e)].  The text of a [CalledProcessError] is never shown: the
    handler of the subprocess step catches it and shows [e.stderr]. *)
Definition exn_str (e : exn) : string :=
  match e with
  | FileNotFoundError msg => msg
  | CalledProcessError stderr =>
      "Command '['makecab', '/F', 'directive.ddf']' returned non-zero exit status."
  | IndexError => "list index out of range"
  | OtherError msg => msg
  end.

(** How a callback ends: it returns, or an exception leaves it. *)
Inductive outcome := Returned | Uncaught (e : exn).

(** [on_set_select]: [selection] is the first selected row, if any. *)
Definition on_set_select (selection : option nat) (self : App)
    : outcome * App :=
  match selection with
  | Some i =>
      let self1 :=
        mkApp (selected_directory self) (file_sets self) (Some i)
              (sets_listbox self) (info_label self) (status_label self)
              true (dialogs self) in
      match file_sets self !! i with
      | Some file_set =>
          (Returned,
           mkApp (selected_directory self) (file_sets self) (Some i)
                 (sets_listbox self) (info_label self)
                 ("Selected: " +:+ name file_set) true (dialogs self))
      | None => (Uncaught IndexError, self1)
      end
  | None =>
      (Returned,
       mkApp (selected_directory self) (file_sets self) None
             (sets_listbox self) (info_label self) (status_label self)
             false (dialogs self))
  end.

(** ** The world the build acts on *)

(** The bytes of a file. *)
Definition content : Type := string.

Record World := mkWorld {
  files : gmap Path content;      (* the regular files and what they hold *)
  temp_dirs : gset string;        (* the directories [tempfile] made *)
  cwd : string                    (* [os.getcwd()] *)
}.

(** What running [makecab /F directive.ddf] can do: exit with status 0,
    exit with another status ([check=True] raises [CalledProcessError]),
    not exist ([FileNotFoundError]), or fail to start for another reason.
    A run writes its files (the cabinet, its reports) by names relative
    to the working directory: the directive's [DiskDirectoryTemplate] is
    empty. *)
Inductive run_result :=
  | Completed (written : list (string * content))
  | ExitNonzero (stderr : string) (written : list (string * content))
  | NotFound
  | Crashed (msg : string).

(** The inputs of one build that the program does not decide. *)
Record Env := mkEnv {
  temp_dir : string;          (* the directory [TemporaryDirectory()] makes *)
  makecab : run_result;       (* what the subprocess does *)
  overwrite : bool;           (* the answer to "Overwrite?" *)
  cleanup_error : option string
    (* [None]: the platform removes a directory that is the working
       directory of the process (POSIX); [Some msg]: it does not
       (Windows), and removing such a directory raises an exception
       that reads [msg] *)
}.

(** The state-and-exception monad of the body of [build_ctx]: a step
    yields a value, executes [return], or raises. *)
Inductive res (A : Type) :=
  | Val (a : A)
  | Return
  | Raise (e : exn).
Arguments Val {A} a.
Arguments Return {A}.
Arguments Raise {A} e.

Definition M (A : Type) : Type := App * World -> res A * (App * World).

Definition ret {A} (a : A) : M A := fun s => (Val a, s).

Definition bind {A B} (m : M A) (k : A -> M B) : M B :=
  fun s =>
    match m s with
    | (Val a, s') => k a s'
    | (Return, s') => (Return, s')
    | (Raise e, s') => (Raise e, s')
    end.

Definition return_ {A} : M A := fun s => (Return, s).
Definition raise {A} (e : exn) : M A := fun s => (Raise e, s).

(** [try: body except ...: handler]; [handler e = None] when no clause
    matches [e]. *)
Definition try_except {A} (body : M A) (handler : exn -> option (M A)) : M A :=
  fun s =>
    match body s with
    | (Raise e, s') =>
        match handler e with
        | Some h => h s'
        | None => (Raise e, s')
        end
    | r => r
    end.

Declare Scope build_scope.
Delimit Scope build_scope with build.
Notation "x <- m ;; k" := (bind m (fun x => k))
  (at level 100, m at next level, right associativity) : build_scope.
Notation "m ;; k" := (bind m (fun _ => k))
  (at level 100, right associativity) : build_scope.

(** ** Archive stager: [build_ctx] *)

Definition with_status (text : string) (self : App) : App :=
  mkApp (selected_directory self) (file_sets self) (selected_set_index self)
        (sets_listbox self) (info_label self) text
        (build_btn self) (dialogs self).

Definition with_dialog (d : dialog) (self : App) : App :=
  mkApp (selected_directory self) (file_sets self) (selected_set_index self)
        (sets_listbox self) (info_label self) (status_label self)
        (build_btn self) (dialogs self ++ [d]).

Definition with_files (fs : gmap Path content) (w : World) : World :=
  mkWorld fs (temp_dirs w) (cwd w).

(** The files a subprocess writes, by names relative to [directory]. *)
Definition write_all (directory : string) (written : list (string * content))
    (fs : gmap Path content) : gmap Path content :=
  foldl (fun acc nc => <[joinpath directory nc.1 := nc.2]> acc) fs written.

(** [tempfile.TemporaryDirectory()] on entry: the directory exists. *)
Definition mkdtemp (temp : string) (w : World) : World :=
  mkWorld (files w) (temp_dirs w ∪ {[ temp ]}) (cwd w).

(** [TemporaryDirectory] on exit: the directory and all it holds are
    removed. *)
Definition rmtree (temp : string) (w : World) : World :=
  mkWorld (filter (fun kv => parent kv.1 ≠ temp) (files w))
          (temp_dirs w ∖ {[ temp ]}) (cwd w).

(** The same when the platform refuses to remove the directory itself:
    what it holds is removed, the directory stays. *)
Definition clear_tree (temp : string) (w : World) : World :=
  mkWorld (filter (fun kv => parent kv.1 ≠ temp) (files w))
          (temp_dirs w) (cwd w).

Section Build.

(** [str(p)]: how [pathlib] writes a path on the platform. *)
Variable path_str : Path -> string.

Definition set_status (text : string) : M unit :=
  fun s => (Val tt, (with_status text s.1, s.2)).

Definition showerror (title message : string) : M unit :=
  fun s => (Val tt, (with_dialog (ShowError title message) s.1, s.2)).

Definition showinfo (title message : string) : M unit :=
  fun s => (Val tt, (with_dialog (ShowInfo title message) s.1, s.2)).

Definition askyesno (title message : string) (answer : bool) : M bool :=
  fun s => (Val answer, (with_dialog (AskYesNo title message answer) s.1, s.2)).

(** [shutil.copy2(src, dst)]: it raises when [src] is not there. *)
Definition copy2 (src dst : Path) : M unit :=
  fun s =>
    match files s.2 !! src with
    | Some c => (Val tt, (s.1, with_files (<[dst := c]> (files s.2)) s.2))
    | None =>
        (Raise (FileNotFoundError
                  ("[Errno 2] No such file or directory: '" +:+ path_str src +:+ "'")),
         s)
    end.

(** [p.write_text(text)]. *)
Definition write_text (p : Path) (text : string) : M unit :=
  fun s => (Val tt, (s.1, with_files (<[p := text]> (files s.2)) s.2)).

(** [p.exists()]. *)
Definition path_exists (p : Path) : M bool :=
  fun s => (Val (bool_decide (is_Some (files s.2 !! p))), s).

Definition getcwd : M string := fun s => (Val (cwd s.2), s).

(** [self.selected_directory.get()]. *)
Definition get_selected_directory : M string :=
  fun s => (Val (selected_directory s.1), s).

Definition chdir (directory : string) : M unit :=
  fun s => (Val tt, (s.1, mkWorld (files s.2) (temp_dirs s.2) directory)).

(** [subprocess.run(["makecab", "/F", "directive.ddf"], check=True)]. *)
Definition subprocess_run (r : run_result) : M unit :=
  fun s =>
    let wrote written :=
      (s.1, with_files (write_all (cwd s.2) written (files s.2)) s.2) in
    match r with
    | Completed written => (Val tt, wrote written)
    | ExitNonzero stderr written => (Raise (CalledProcessError stderr), wrote written)
    | NotFound =>
        (Raise (FileNotFoundError
                  "[Errno 2] No such file or directory: 'makecab'"), s)
    | Crashed msg => (Raise (OtherError msg), s)
    end.

(** The directive file for [makecab] (lines 201-216). *)
Definition ddf_content (name : string) : string :=
  ".OPTION EXPLICIT
.Set CabinetNameTemplate=" +:+ name +:+ ".cab
.Set DiskDirectoryTemplate=
.Set CompressionType=MSZIP
.Set Cabinet=ON
.Set Compress=ON
.Set CabinetFileCountThreshold=0
.Set FolderFileCountThreshold=0
.Set FolderSizeThreshold=0
.Set MaxCabinetSize=0
.Set MaxDiskFileCount=0
.Set MaxDiskSize=0
" +:+ Str.dquote +:+ "Info.xml" +:+ Str.dquote +:+ "
" +:+ Str.dquote +:+ "Elements.txt" +:+ Str.dquote +:+ "
" +:+ Str.dquote +:+ "Sightings.DAT" +:+ Str.dquote +:+ "
".

Local Open Scope build_scope.

(** Lines 186-218: the three copies and the directive. *)
Definition stage (temp_path : string) (file_set : FileSet) : M unit :=
  set_status "Copying and renaming files...";;
  copy2 (xml file_set) (joinpath temp_path "Info.xml");;
  copy2 (txt file_set) (joinpath temp_path "Elements.txt");;
  copy2 (dat file_set) (joinpath temp_path "Sightings.DAT");;
  set_status "Creating CAB file...";;
  write_text (joinpath temp_path "directive.ddf") (ddf_content (name file_set)).

(** Lines 221-241: the subprocess, run from the staging directory. *)
Definition run_makecab (env : Env) (temp_path : string) : M unit :=
  try_except
    (original_dir <- getcwd;;
     chdir temp_path;;
     subprocess_run (makecab env);;
     chdir original_dir)
    (fun e =>
       match e with
       | CalledProcessError stderr =>
           Some (showerror "Error" ("Failed to create CAB file:" +:+ Str.nl +:+ stderr);;
                 return_)
       | FileNotFoundError _ =>
           Some (showerror "Error"
                   "makecab.exe not found. Please ensure you're running this on Windows.";;
                 return_)
       | _ => None
       end).

(** The path the build writes: [output_dir / f"{name}.ctx"]. *)
Definition ctx_path (self : App) (file_set : FileSet) : Path :=
  joinpath (selected_directory self) (name file_set +:+ ".ctx").

(** Lines 243-264: the copy to the destination. *)
Definition finalize (env : Env) (temp_path : string) (file_set : FileSet)
    : M unit :=
  let cab_file := joinpath temp_path (name file_set +:+ ".cab") in
  set_status "Creating CTX file...";;
  output_dir <- get_selected_directory;;
  let ctx_file := joinpath output_dir (name file_set +:+ ".ctx") in
  present <- path_exists ctx_file;;
  (if present then
     yes <- askyesno "File Exists"
              (pname ctx_file +:+ " already exists. Overwrite?")
              (overwrite env);;
     if yes then ret tt
     else set_status "Operation cancelled";; return_
   else ret tt);;
  copy2 cab_file ctx_file;;
  set_status ("Successfully created " +:+ pname ctx_file);;
  showinfo "Success"
    ("Done! The file is located here:" +:+ Str.nl +:+ path_str ctx_file
     +:+ Str.nl +:+ Str.nl
     +:+ "Import into the appropriate CyberTracker database.").

(** The body of the [with] block. *)
Definition build_body (env : Env) (file_set : FileSet) : M unit :=
  let temp_path := temp_dir env in
  stage temp_path file_set;;
  run_makecab env temp_path;;
  finalize env temp_path file_set.

(** [with tempfile.TemporaryDirectory() as temp_dir: body].  However the
    body ends, the cleanup runs.  When the process is still in the
    directory and the platform does not remove a working directory, the
    cleanup raises, and its exception takes the place of the way the body
    ended. *)
Definition with_temporary_directory {A} (temp : string)
    (cleanup_error : option string) (body : M A) : M A :=
  fun s =>
    let r := body (s.1, mkdtemp temp s.2) in
    match cleanup_error with
    | Some msg =>
        if String.eqb (cwd r.2.2) temp
        then (Raise (OtherError msg), (r.2.1, clear_tree temp r.2.2))
        else (r.1, (r.2.1, rmtree temp r.2.2))
    | None => (r.1, (r.2.1, rmtree temp r.2.2))
    end.

(** [build_ctx] (lines 173-268). *)
Definition build_ctx (env : Env) (self : App) (w : World)
    : outcome * (App * World) :=
  match selected_set_index self with
  | None =>
      (Returned,
       (with_dialog (ShowError "Error" "Please select a file set first") self, w))
  | Some i =>
      match file_sets self !! i with
      | None => (Uncaught IndexError, (self, w))
      | Some file_set =>
          let guarded :=
            try_except
              (with_temporary_directory (temp_dir env) (cleanup_error env)
                 (build_body env file_set))
              (fun e =>
                 Some (showerror "Error"
                         ("An error occurred:" +:+ Str.nl +:+ exn_str e);;
                       set_status "Error occurred during build")) in
          match guarded (self, w) with
          | (Raise e, s) => (Uncaught e, s)
          | (_, s) => (Returned, s)
          end
      end
  end.

End Build.

(** ** Vocabulary of the properties *)

(** A directory entry is a regular file with extension [ext], the way
    the scan tells ([name.lower().endswith(ext)]). *)
Definition has_ext (ext : string) (e : DirEntry) : bool :=
  e.2 && Str.endswith (Str.lower e.1) ext.

(** The same test on a path. *)
Definition is_ext (ext : string) (p : Path) : bool :=
  Str.endswith (Str.lower (pname p)) ext.

(** The base name of a path up to case: its lower-cased stem. *)
Definition base_of (p : Path) : string := Str.lower (stem p).

(** The entries of a listing that are files with extension [ext] and
    base name [b] up to case. *)
Definition components (ext b : string) (directory : string)
    (listing : list DirEntry) : list DirEntry :=
  List.filter
    (fun e => has_ext ext e && String.eqb (base_of (joinpath directory e.1)) b)
    listing.

(** The reported file sets whose name is [b] up to case. *)
Definition reported (b : string) (sets : list FileSet) : list FileSet :=
  List.filter (fun f => String.eqb (Str.lower (name f)) b) sets.

(** The paths of a list of entries of [directory]. *)
Definition paths_of (directory : string) (l : list DirEntry) : list Path :=
  List.map (fun e => joinpath directory e.1) l.

(** The invariant of the matching loop: what [processed_files] holds are
    the members of the sets reported so far, each with its extension. *)
Definition loop_inv (fl : flavour) (acc : list FileSet * gset Path) : Prop :=
  (∀ k, k ∈ acc.2 ->
     ∃ f, In f acc.1 ∧
       (k = normcase fl (xml f) ∨ k = normcase fl (txt f)
        ∨ k = normcase fl (dat f))) ∧
  (∀ f, In f acc.1 ->
     is_ext ".xml" (xml f) = true ∧ is_ext ".txt" (txt f) = true ∧
     is_ext ".dat" (dat f) = true ∧ name f = stem (xml f)).

(** Nothing of the staging directory [temp] is there. *)
Definition staging_absent (temp : string) (w : World) : Prop :=
  (temp ∉ temp_dirs w) ∧ ∀ p, parent p = temp -> files w !! p = None.

(** A text from its lines, each ended by a line break. *)
Definition unlines (ls : list string) : string :=
  foldr (fun l acc => l +:+ Str.nl +:+ acc) EmptyString ls.

Definition quoted (s : string) : string := Str.dquote +:+ s +:+ Str.dquote.

(** The setting lines of the directive, for a cabinet named after [name]. *)
Definition ddf_settings (name : string) : list string :=
  [ ".OPTION EXPLICIT";
    ".Set CabinetNameTemplate=" +:+ name +:+ ".cab";
    ".Set DiskDirectoryTemplate=";
    ".Set CompressionType=MSZIP";
    ".Set Cabinet=ON";
    ".Set Compress=ON";
    ".Set CabinetFileCountThreshold=0";
    ".Set FolderFileCountThreshold=0";
    ".Set FolderSizeThreshold=0";
    ".Set MaxCabinetSize=0";
    ".Set MaxDiskFileCount=0";
    ".Set MaxDiskSize=0" ].

(** The member lines of the directive. *)
Definition ddf_members : list string :=
  [ quoted "Info.xml"; quoted "Elements.txt"; quoted "Sightings.DAT" ].


(** The files of the world once the three copies and the directive are
    written into [temp]. *)
Definition staged_files (temp : string) (directive : string)
    (cx ct cd : content) (fs : gmap Path content) : gmap Path content :=
  <[joinpath temp "directive.ddf" := directive]>
    (<[joinpath temp "Sightings.DAT" := cd]>
       (<[joinpath temp "Elements.txt" := ct]>
          (<[joinpath temp "Info.xml" := cx]> fs))).

(** The exception of a cleanup that the platform refuses, from the world
    in which the body of the [with] block ends. *)
Definition cleanup_refused (env : Env) (w : World) : option string :=
  match cleanup_error env with
  | Some msg => if String.eqb (cwd w) (temp_dir env) then Some msg else None
  | None => None
  end.

(** What the handler of [build_ctx] does with an exception. *)
Definition report_exception (e : exn) (self : App) : App :=
  with_status "Error occurred during build"
    (with_dialog
       (ShowError "Error" ("An error occurred:" +:+ Str.nl +:+ exn_str e))
       self).

(** A step keeps the relation [R] between the state before and after,
    however it ends. *)
Definition preserves {A} (R : relation (App * World)) (m : M A) : Prop :=
  ∀ s, R s (m s).2.

(** What no step of a build changes in the application. *)
Definition app_frame : relation (App * World) :=
  fun s s' =>
    file_sets s'.1 = file_sets s.1 ∧
    selected_directory s'.1 = selected_directory s.1 ∧
    selected_set_index s'.1 = selected_set_index s.1.

(** The working directory stays. *)
Definition cwd_frame : relation (App * World) :=
  fun s s' => cwd s'.2 = cwd s.2.

(** The world stays. *)
Definition world_frame : relation (App * World) :=
  fun s s' => s'.2 = s.2.

(** A rendering of paths for the examples: parent, slash, name. *)
Definition slash_str (p : Path) : string := parent p +:+ "/" +:+ pname p.

(** The application as [__init__] and [setup_ui] leave it. *)
Definition initial_app : App :=
  mkApp "" [] None [] "No file sets found" "Select a directory to begin"
        false [].

(** ** The example of the specification: a directory with
    [Leopard.xml], [leopard.txt] and [LEOPARD.dat] *)

Definition leopard_listing : list DirEntry :=
  [("Leopard.xml", true); ("leopard.txt", true); ("LEOPARD.dat", true)].

Definition leopard_set_in (directory : string) : FileSet :=
  mkFileSet "Leopard" (mkPath directory "Leopard.xml")
    (mkPath directory "leopard.txt") (mkPath directory "LEOPARD.dat").

Definition leopard_set : FileSet := leopard_set_in "C:/data".

(** The directory is chosen and the one row of the list box selected. *)
Definition leopard_app : App :=
  (on_set_select (Some 0%nat)
     (browse_directory Windows "C:/data" leopard_listing initial_app)).2.

(** The three files on disk, and an older [Leopard.ctx] when [old]
    holds one. *)
Definition leopard_world (old : option content) : World :=
  let sources : gmap Path content :=
    <[mkPath "C:/data" "Leopard.xml" := "<info/>"]>
      (<[mkPath "C:/data" "leopard.txt" := "elements"]>
         (<[mkPath "C:/data" "LEOPARD.dat" := "sightings"]> ∅)) in
  mkWorld
    match old with
    | Some c => <[mkPath "C:/data" "Leopard.ctx" := c]> sources
    | None => sources
    end
    ∅ "C:/tool".

(** A build on Windows, which does not remove a working directory. *)
Definition leopard_env (r : run_result) (answer : bool) : Env :=
  mkEnv "C:/Temp/tmp1" r answer
        (Some "[WinError 32] The process cannot access the file because it is being used by another process: 'C:/Temp/tmp1'").

(** ** Vocabulary of the further properties *)


(** The directory entry a path of a scan comes from. *)
Definition entry_of (p : Path) : DirEntry := (pname p, true).

(** An entry that the scan looks at: a regular file with one of the
    three extensions. *)
Definition relevant (e : DirEntry) : bool :=
  has_ext ".xml" e || has_ext ".txt" e || has_ext ".dat" e.

(** What a build keeps of the files: all but those of the staging
    directory and the [.ctx] file of the file set it builds. *)
Definition build_frame (temp : string) (f : FileSet) : relation (App * World) :=
  fun s s' =>
    selected_directory s'.1 = selected_directory s.1 ∧
    ∀ p, parent p <> temp -> p <> ctx_path s.1 f ->
         files s'.2 !! p = files s.2 !! p.

(** A step only adds to the dialogs. *)
Definition grows {A} (m : M A) : Prop :=
  ∀ s, ∃ l, dialogs (m s).2.1 = dialogs s.1 ++ l.

(** A step adds to the dialogs, and has opened one when it ends by
    [return]. *)
Definition talks {A} (m : M A) : Prop :=
  ∀ s, ∃ l, dialogs (m s).2.1 = dialogs s.1 ++ l ∧
            ((m s).1 = Return -> l <> []).

(** The same, and it has opened one when it runs to its end. *)
Definition ends_talking {A} (m : M A) : Prop :=
  ∀ s, ∃ l, dialogs (m s).2.1 = dialogs s.1 ++ l ∧
            ((∀ e, (m s).1 <> Raise e) -> l <> []).

(** The states the user interface reaches (lines 52, 75 and 82-83 bind
    the callbacks): it starts as [__init__] leaves it; the directory
    dialog, a change of the selection in the list box (the selected row,
    if any, is a row of the list box) and a press of the build button
    (when it is enabled) run the callbacks. *)
Inductive reachable (fl : flavour) : App -> Prop :=
  | reach_init : reachable fl initial_app
  | reach_browse self answer listing :
      reachable fl self ->
      reachable fl (browse_directory fl answer listing self)
  | reach_select self selection :
      reachable fl self ->
      (∀ i, selection = Some i -> (i < length (sets_listbox self))%nat) ->
      reachable fl (on_set_select selection self).2
  | reach_build self path_str env w :
      reachable fl self ->
      build_btn self = true ->
      reachable fl (build_ctx path_str env self w).2.1.

(** The widgets and fields that only a scan or a selection writes. *)
Definition widget_frame : relation (App * World) :=
  fun s s' =>
    file_sets s'.1 = file_sets s.1 ∧
    selected_set_index s'.1 = selected_set_index s.1 ∧
    sets_listbox s'.1 = sets_listbox s.1 ∧
    info_label s'.1 = info_label s.1 ∧
    build_btn s'.1 = build_btn s.1.

(** What holds in every state the user interface reaches: the list box
    shows the file sets, row by row, and the build button is enabled
    only while an index is selected. *)
Definition ui_inv (self : App) : Prop :=
  sets_listbox self = display_text <$> file_sets self ∧
  (build_btn self = true -> is_Some (selected_set_index self)).

(** * Properties *)

(** ** Strings *)

Module StrFacts.
Import Str.

Lemma lower_length s : String.length (lower s) = String.length s.
Proof. induction s as [|c s IH]; simpl; congruence. Qed.

Lemma lower_ascii_dot c : Ascii.eqb (lower_ascii c) "." = Ascii.eqb c ".".
Proof.
  destruct c as [[] [] [] [] [] [] [] []]; vm_compute; reflexivity.
Qed.

Lemma rfind_lower s : rfind (lower s) "." = rfind s ".".
Proof.
  induction s as [|c s IH]; simpl; [done|].
  rewrite IH, lower_ascii_dot. done.
Qed.

Lemma substring_lower n s : substring 0 n (lower s) = lower (substring 0 n s).
Proof.
  revert s; induction n as [|n IH]; intros [|c s]; simpl; try done.
  by rewrite IH.
Qed.

Lemma append_assoc s1 s2 s3 : (s1 +:+ s2) +:+ s3 = s1 +:+ s2 +:+ s3.
Proof.
  induction s1 as [|c s1 IH]; [done|].
  change (String c ((s1 +:+ s2) +:+ s3) = String c (s1 +:+ s2 +:+ s3)).
  by rewrite IH.
Qed.

Lemma endswith_cons c s e :
  endswith (String c s) e = String.eqb (String c s) e || endswith s e.
Proof. reflexivity. Qed.

Lemma endswith_nil e : endswith "" e = String.eqb "" e.
Proof. unfold endswith. by rewrite orb_false_r. Qed.


Lemma endswith_exclusive s e1 e2 :
  e1 <> e2 -> endswith e1 e2 = false -> endswith e2 e1 = false ->
  endswith s e1 = true -> endswith s e2 = false.
Proof.
  intros Hne H12 H21. induction s as [|c s IH].
  - rewrite !endswith_nil. intros ->%String.eqb_eq.
    by apply String.eqb_neq.
  - rewrite !endswith_cons.
    destruct (String.eqb_spec (String c s) e1) as [E1|N1].
    + intros _. rewrite <- endswith_cons, E1. done.
    + rewrite orb_false_l. intros Hs. rewrite (IH Hs), orb_false_r. apply String.eqb_neq.
      intros E2. rewrite <- E2, endswith_cons in H21.
      apply orb_false_iff in H21 as [_ H21]. congruence.
Qed.

End StrFacts.

(** ** Paths *)

Lemma stem_lower (p : Path) (d : string) :
  Str.lower (stem p) = stem (mkPath d (Str.lower (pname p))).
Proof.
  unfold stem, Str.len, Str.slice_to; simpl.
  rewrite StrFacts.rfind_lower, StrFacts.lower_length.
  destruct (_ && _); [|done].
  by rewrite StrFacts.substring_lower.
Qed.

(** Paths that [pathlib] holds equal have the same name up to case. *)
Lemma normcase_pname fl p q :
  normcase fl p = normcase fl q -> Str.lower (pname p) = Str.lower (pname q).
Proof.
  destruct fl; simpl; [by intros ->|]. by intros [= _ ->].
Qed.

Lemma normcase_base_of fl p q :
  normcase fl p = normcase fl q -> base_of p = base_of q.
Proof.
  intros H%normcase_pname. unfold base_of.
  by rewrite (stem_lower p ""), (stem_lower q ""), H.
Qed.

Lemma is_ext_exclusive e1 e2 p q :
  e1 <> e2 -> Str.endswith e1 e2 = false -> Str.endswith e2 e1 = false ->
  is_ext e1 p = true -> is_ext e2 q = true ->
  Str.lower (pname p) <> Str.lower (pname q).
Proof.
  unfold is_ext. intros Hne H12 H21 Hp Hq E. rewrite E in Hp.
  pose proof (StrFacts.endswith_exclusive _ _ _ Hne H12 H21 Hp). congruence.
Qed.

(** ** The classifying loop *)

Lemma has_ext_xml_only e :
  has_ext ".xml" e = true -> has_ext ".txt" e = false ∧ has_ext ".dat" e = false.
Proof.
  unfold has_ext. destruct (e.2); simpl; [|done]. intros H.
  split; eapply StrFacts.endswith_exclusive; try exact H; done.
Qed.

Lemma has_ext_txt_only e :
  has_ext ".txt" e = true -> has_ext ".dat" e = false.
Proof.
  unfold has_ext. destruct (e.2); simpl; [|done]. intros H.
  eapply StrFacts.endswith_exclusive; try exact H; done.
Qed.

Lemma classify_step_spec directory xs ts ds e :
  classify_step directory (xs, ts, ds) e
  = (xs ++ paths_of directory (List.filter (has_ext ".xml") [e]),
     ts ++ paths_of directory (List.filter (has_ext ".txt") [e]),
     ds ++ paths_of directory (List.filter (has_ext ".dat") [e])).
Proof.
  cbv [List.filter]. destruct (has_ext ".xml" e) eqn:Ex.
  { destruct (has_ext_xml_only e Ex) as [-> ->]. revert Ex.
    unfold has_ext, classify_step. destruct e as [n []]; simpl; [|done].
    intros ->. by rewrite !app_nil_r. }
  destruct (has_ext ".txt" e) eqn:Et.
  { rewrite (has_ext_txt_only e Et). revert Ex Et.
    unfold has_ext, classify_step. destruct e as [n []]; simpl; [|done].
    intros -> ->. by rewrite !app_nil_r. }
  revert Ex Et. unfold has_ext, classify_step.
  destruct e as [n []]; simpl; [|by rewrite !app_nil_r].
  intros -> ->. destruct (Str.endswith _ _); simpl; by rewrite !app_nil_r.
Qed.

Lemma filter_cons_app {A} (f : A -> bool) x l :
  List.filter f (x :: l) = List.filter f [x] ++ List.filter f l.
Proof. simpl. by destruct (f x). Qed.

Lemma classify_acc directory listing xs ts ds :
  foldl (classify_step directory) (xs, ts, ds) listing
  = (xs ++ paths_of directory (List.filter (has_ext ".xml") listing),
     ts ++ paths_of directory (List.filter (has_ext ".txt") listing),
     ds ++ paths_of directory (List.filter (has_ext ".dat") listing)).
Proof.
  revert xs ts ds. induction listing as [|e l IH]; intros xs ts ds.
  { simpl. by rewrite !app_nil_r. }
  change (foldl ?f ?a (e :: l)) with (foldl f (f a e) l).
  rewrite classify_step_spec, IH.
  rewrite (filter_cons_app (has_ext ".xml") e l),
    (filter_cons_app (has_ext ".txt") e l),
    (filter_cons_app (has_ext ".dat") e l).
  unfold paths_of. by rewrite !List.map_app, <- !app_assoc.
Qed.

(** The three lists of the scan are the entries that are regular files
    with the extension, in the order of the listing. *)
Lemma classify_spec directory listing :
  classify directory listing
  = (paths_of directory (List.filter (has_ext ".xml") listing),
     paths_of directory (List.filter (has_ext ".txt") listing),
     paths_of directory (List.filter (has_ext ".dat") listing)).
Proof. unfold classify. by rewrite classify_acc. Qed.

Lemma in_paths_of ext directory listing p :
  In p (paths_of directory (List.filter (has_ext ext) listing)) <->
  parent p = directory ∧ In (pname p, true) listing ∧ is_ext ext p = true.
Proof.
  unfold paths_of. rewrite in_map_iff. split.
  - intros ([n b] & <- & [Hin He]%filter_In). unfold has_ext in He. simpl in *.
    apply andb_true_iff in He as [-> He]. done.
  - intros (Hd & Hin & He). exists (pname p, true). split.
    + destruct p; simpl in *; by subst.
    + apply filter_In. split; [done|]. unfold has_ext. simpl. done.
Qed.

(** ** The matching loop *)

Lemma find_match_lower b b' cs :
  Str.lower b = Str.lower b' -> find_match b cs = find_match b' cs.
Proof. unfold find_match. by intros ->. Qed.

Lemma find_match_some b cs p :
  find_match b cs = Some p -> In p cs ∧ base_of p = Str.lower b.
Proof.
  intros [Hin He]%find_some. split; [done|]. by apply String.eqb_eq.
Qed.

Lemma find_match_is_some b cs p :
  In p cs -> base_of p = Str.lower b -> is_Some (find_match b cs).
Proof.
  intros Hin Hb. destruct (find_match b cs) eqn:E; [by eexists|].
  pose proof (find_none _ _ E p Hin) as Hf. simpl in Hf.
  apply String.eqb_neq in Hf. done.
Qed.

Lemma loop_inv_init fl : loop_inv fl ([], ∅).
Proof. split; [set_solver|]. by intros f []. Qed.

Section MatchFacts.

Variable fl : flavour.
Variables txt_files dat_files : list Path.

Local Abbreviation step := (match_step fl txt_files dat_files).
Local Abbreviation loop xs acc := (match_loop fl xs txt_files dat_files acc).

(** One turn of the loop leaves the state alone or appends one set. *)
Lemma match_step_cases acc x :
  step acc x = acc ∨
  ∃ t d,
    find_match (stem x) txt_files = Some t ∧
    find_match (stem x) dat_files = Some d ∧
    (normcase fl x ∉ acc.2) ∧
    step acc x =
      (acc.1 ++ [mkFileSet (stem x) x t d],
       acc.2 ∪ {[ normcase fl x ]} ∪ {[ normcase fl t ]} ∪ {[ normcase fl d ]}).
Proof.
  destruct acc as [sets processed]. unfold step, match_step.
  case_bool_decide as Hin; [by left|].
  destruct (find_match (stem x) txt_files) as [t|]; [|by left].
  destruct (find_match (stem x) dat_files) as [d|]; [|by left].
  right. by exists t, d.
Qed.

Lemma loop_cons x xs acc : loop (x :: xs) acc = loop xs (step acc x).
Proof. reflexivity. Qed.

(** Where a reported set comes from. *)
Lemma match_loop_sound xs acc f :
  In f (loop xs acc).1 ->
  In f acc.1 ∨
  (In (xml f) xs ∧ name f = stem (xml f) ∧
   find_match (name f) txt_files = Some (txt f) ∧
   find_match (name f) dat_files = Some (dat f)).
Proof.
  revert acc. induction xs as [|x xs IH]; intros acc; [by left|].
  rewrite loop_cons. intros [Hacc|(Hx & Hrest)]%IH.
  - destruct (match_step_cases acc x) as [E|(t & d & Ht & Hd & _ & E)];
      rewrite E in Hacc; [by left|].
    simpl in Hacc. apply in_app_iff in Hacc as [?|[<-|[]]]; [by left|].
    right. simpl. auto.
  - right. simpl. auto.
Qed.

Lemma match_loop_mono xs acc f : In f acc.1 -> In f (loop xs acc).1.
Proof.
  revert acc. induction xs as [|x xs IH]; intros acc Hf; [done|].
  rewrite loop_cons. apply IH.
  destruct (match_step_cases acc x) as [->|(t & d & _ & _ & _ & ->)]; [done|].
  simpl. apply in_app_iff. by left.
Qed.

(** A turn adds at most one set, named after the stem of its [.xml] file. *)
Lemma match_loop_bound b xs acc :
  (length (reported b (loop xs acc).1)
   <= length (reported b acc.1)
      + length (List.filter (fun x => String.eqb (base_of x) b) xs))%nat.
Proof.
  revert acc. induction xs as [|x xs IH]; intros acc; [simpl; lia|].
  rewrite loop_cons. etrans; [apply IH|].
  destruct (match_step_cases acc x) as [->|(t & d & _ & _ & _ & ->)].
  - simpl. destruct (String.eqb _ _); simpl; lia.
  - unfold reported. simpl. rewrite List.filter_app, length_app. simpl.
    unfold base_of. destruct (String.eqb _ _); simpl; lia.
Qed.

Hypothesis txt_files_ext : ∀ t, In t txt_files -> is_ext ".txt" t = true.
Hypothesis dat_files_ext : ∀ d, In d dat_files -> is_ext ".dat" d = true.

Lemma match_step_inv acc x :
  is_ext ".xml" x = true -> loop_inv fl acc -> loop_inv fl (step acc x).
Proof.
  intros Hx [Hp Hs].
  destruct (match_step_cases acc x) as [->|(t & d & Ht & Hd & _ & ->)]; [done|].
  apply find_match_some in Ht as [Ht _], Hd as [Hd _].
  split; simpl.
  - intros k [[[Hk|Hk]%elem_of_union|Hk]%elem_of_union|Hk]%elem_of_union.
    + destruct (Hp k Hk) as (f & Hf & Hkf). exists f. split; [|done].
      apply in_app_iff. by left.
    + apply elem_of_singleton in Hk as ->. eexists. split.
      * apply in_app_iff. right. by left.
      * simpl. auto.
    + apply elem_of_singleton in Hk as ->. eexists. split.
      * apply in_app_iff. right. by left.
      * simpl. auto.
    + apply elem_of_singleton in Hk as ->. eexists. split.
      * apply in_app_iff. right. by left.
      * simpl. auto.
  - intros f [Hf|[<-|[]]]%in_app_iff; [by apply Hs|]. simpl. auto.
Qed.

(** An [.xml] file whose [.txt] and [.dat] companions are found is
    reported, under its own name or under that of an [.xml] file that
    [pathlib] holds equal to it. *)
Lemma match_loop_complete xs acc x :
  (∀ y, In y xs -> is_ext ".xml" y = true) ->
  loop_inv fl acc -> In x xs ->
  is_Some (find_match (stem x) txt_files) ->
  is_Some (find_match (stem x) dat_files) ->
  ∃ f, In f (loop xs acc).1 ∧ Str.lower (name f) = base_of x.
Proof.
  intros Hxs Hinv Hin [t Ht] [d Hd]. revert acc Hinv.
  induction xs as [|y xs IH]; intros acc Hinv; [done|].
  rewrite loop_cons.
  assert (is_ext ".xml" y = true) as Hy by (apply Hxs; by left).
  destruct Hin as [->|Hin].
  2:{ apply IH; [intros; apply Hxs; by right|done|by apply match_step_inv]. }
  clear IH.
  assert (∃ f, In f (step acc x).1 ∧ Str.lower (name f) = base_of x)
    as (f & Hf & Hname).
  { unfold step, match_step. destruct acc as [sets processed].
    case_bool_decide as Hk.
    - destruct Hinv as [Hp Hs]. destruct (Hp _ Hk) as (f & Hf & Hkf).
      destruct (Hs f Hf) as (Ex & Et & Ed & Hn). exists f. split; [done|].
      destruct Hkf as [E|[E|E]].
      + rewrite Hn. symmetry. by apply (normcase_base_of fl).
      + apply normcase_pname in E.
        by destruct (is_ext_exclusive ".xml" ".txt" x (txt f)).
      + apply normcase_pname in E.
        by destruct (is_ext_exclusive ".xml" ".dat" x (dat f)).
    - rewrite Ht, Hd. eexists. split.
      + simpl. apply in_app_iff. right. by left.
      + done. }
  exists f. split; [|done]. by apply match_loop_mono.
Qed.

End MatchFacts.

(** ** The scan as a whole *)

Lemma matched_sets_eq fl directory listing :
  matched_sets fl directory listing
  = (match_loop fl
       (paths_of directory (List.filter (has_ext ".xml") listing))
       (paths_of directory (List.filter (has_ext ".txt") listing))
       (paths_of directory (List.filter (has_ext ".dat") listing))
       ([], ∅)).1.
Proof. unfold matched_sets. by rewrite classify_spec. Qed.

Lemma scan_file_sets fl directory listing self :
  file_sets (scan_for_file_sets fl directory listing self)
  = matched_sets fl directory listing.
Proof.
  unfold scan_for_file_sets. by destruct (matched_sets fl directory listing).
Qed.


Lemma components_length ext b directory listing :
  length (List.filter (fun x => String.eqb (base_of x) b)
            (paths_of directory (List.filter (has_ext ext) listing)))
  = length (components ext b directory listing).
Proof.
  unfold components, paths_of.
  induction listing as [|e l IH]; simpl; [done|].
  destruct (has_ext ext e); simpl; [|done].
  destruct (String.eqb _ _); simpl; by rewrite IH.
Qed.

Lemma components_inhabited ext b directory listing :
  components ext b directory listing <> [] ->
  ∃ p, In p (paths_of directory (List.filter (has_ext ext) listing))
       ∧ base_of p = b.
Proof.
  destruct (components ext b directory listing) as [|e c] eqn:E; [done|].
  intros _.
  assert (In e (components ext b directory listing)) as Hin
    by (rewrite E; by left).
  apply filter_In in Hin as [Hin [He Hb%String.eqb_eq]%andb_true_iff].
  exists (joinpath directory e.1). split; [|done].
  apply in_map_iff. exists e. split; [done|]. by apply filter_In.
Qed.


(** ** Claims about the set matcher *)

(** C1 (as amended).  When a directory holds a [.xml], a [.txt] and a
    [.dat] file with base name [b] up to case, the scan reports at least
    one file set named [b] up to case, and at most as many as there are
    [.xml] files with that base name: exactly one when there is one such
    [.xml] file. *)
Theorem scan_reports_base_name fl directory listing b
    (Hxml : components ".xml" b directory listing <> [])
    (Htxt : components ".txt" b directory listing <> [])
    (Hdat : components ".dat" b directory listing <> []) :
  (1 <= length (reported b (matched_sets fl directory listing))
     <= length (components ".xml" b directory listing))%nat.
Proof.
  rewrite matched_sets_eq. split.
  - apply components_inhabited in Hxml as (x & Hx & Hbx).
    apply components_inhabited in Htxt as (t & Ht & Hbt).
    apply components_inhabited in Hdat as (d & Hd & Hbd).
    destruct (match_loop_complete fl
                (paths_of directory (List.filter (has_ext ".txt") listing))
                (paths_of directory (List.filter (has_ext ".dat") listing))
                (fun t Ht => proj2 (proj2 (proj1 (in_paths_of _ _ _ _) Ht)))
                (fun t Ht => proj2 (proj2 (proj1 (in_paths_of _ _ _ _) Ht)))
                (paths_of directory (List.filter (has_ext ".xml") listing))
                ([], ∅) x) as (f & Hf & Hname).
    + intros y Hy. by apply in_paths_of in Hy as (_ & _ & ?).
    + apply loop_inv_init.
    + done.
    + apply (find_match_is_some _ _ t); [done|]. by rewrite Hbt.
    + apply (find_match_is_some _ _ d); [done|]. by rewrite Hbd.
    + assert (In f (reported b
        (match_loop fl
           (paths_of directory (List.filter (has_ext ".xml") listing))
           (paths_of directory (List.filter (has_ext ".txt") listing))
           (paths_of directory (List.filter (has_ext ".dat") listing))
           ([], ∅)).1)) as Hin.
      { apply filter_In. split; [done|]. apply String.eqb_eq. congruence. }
      destruct (reported _ _); [done|simpl; lia].
  - etrans; [apply match_loop_bound|]. simpl. by rewrite components_length.
Qed.

(** A directory with one file of each kind, all named [a]. *)
Lemma scan_reports_base_name_witness :
  (1 <= length (reported "a"
                  (matched_sets Windows "d"
                     [("a.xml", true); ("A.TXT", true); ("a.dat", true)]))
     <= 1)%nat.
Proof.
  apply (scan_reports_base_name Windows "d"
           [("a.xml", true); ("A.TXT", true); ("a.dat", true)] "a");
    vm_compute; discriminate.
Defined.

(** C1 (as stated) fails.  On a file system with exact names a directory
    can hold [a.xml] and [A.xml] beside [a.txt] and [a.dat]: the scan
    reports two file sets whose names are equal up to case. *)
Lemma scan_reports_two_for_one_base_name :
  let listing :=
    [("a.xml", true); ("A.xml", true); ("a.txt", true); ("a.dat", true)] in
  components ".xml" "a" "d" listing <> [] ∧
  components ".txt" "a" "d" listing <> [] ∧
  components ".dat" "a" "d" listing <> [] ∧
  matched_sets Posix "d" listing
  = [ mkFileSet "a" (mkPath "d" "a.xml") (mkPath "d" "a.txt") (mkPath "d" "a.dat");
      mkFileSet "A" (mkPath "d" "A.xml") (mkPath "d" "a.txt") (mkPath "d" "a.dat") ] ∧
  length (reported "a" (matched_sets Posix "d" listing)) = 2%nat.
Proof. vm_compute. repeat split; discriminate. Qed.

(** The same happens with names that differ beyond case, on either
    flavour: the stem of [.xml] is [.xml], and so is that of [.xml.xml]. *)
Lemma scan_reports_two_for_dotted_names fl :
  matched_sets fl "d"
    [(".xml", true); (".xml.xml", true); (".xml.txt", true); (".xml.dat", true)]
  = [ mkFileSet ".xml" (mkPath "d" ".xml") (mkPath "d" ".xml.txt") (mkPath "d" ".xml.dat");
      mkFileSet ".xml" (mkPath "d" ".xml.xml") (mkPath "d" ".xml.txt") (mkPath "d" ".xml.dat") ].
Proof. destruct fl; vm_compute; reflexivity. Qed.

(** With case-folding path comparison the second of two [.xml] files
    whose names are equal up to case is skipped. *)
Lemma scan_skips_equal_path_on_windows :
  matched_sets Windows "d"
    [("a.xml", true); ("A.xml", true); ("a.txt", true); ("a.dat", true)]
  = [ mkFileSet "a" (mkPath "d" "a.xml") (mkPath "d" "a.txt") (mkPath "d" "a.dat") ].
Proof. vm_compute. reflexivity. Qed.



(** X8.  Two sets reported under names equal up to case have the same
    companions: the search for them does not look at [processed_files]. *)
Lemma matched_sets_same_companions fl directory listing f g :
  In f (matched_sets fl directory listing) ->
  In g (matched_sets fl directory listing) ->
  Str.lower (name f) = Str.lower (name g) ->
  txt f = txt g ∧ dat f = dat g.
Proof.
  rewrite matched_sets_eq.
  intros [[]|(_ & _ & Htf & Hdf)]%match_loop_sound
         [[]|(_ & _ & Htg & Hdg)]%match_loop_sound Hl.
  rewrite (find_match_lower _ _ _ Hl) in Htf.
  rewrite (find_match_lower _ _ _ Hl) in Hdf. split; congruence.
Qed.

(** C10.  The file sets of one scan need not be disjoint: a directory
    with distinct entry names has two reported sets, with different
    [.xml] files, whose [.txt] file and whose [.dat] file are the same. *)
Theorem scan_sets_share_companions :
  ∃ directory listing f g,
    NoDup (listing.*1) ∧
    In f (matched_sets Posix directory listing) ∧
    In g (matched_sets Posix directory listing) ∧
    xml f <> xml g ∧ txt f = txt g ∧ dat f = dat g.
Proof.
  exists "d",
    [("a.xml", true); ("A.xml", true); ("a.txt", true); ("a.dat", true)],
    (mkFileSet "a" (mkPath "d" "a.xml") (mkPath "d" "a.txt") (mkPath "d" "a.dat")),
    (mkFileSet "A" (mkPath "d" "A.xml") (mkPath "d" "a.txt") (mkPath "d" "a.dat")).
  split.
  { compute_done. }
  vm_compute. repeat split; auto. discriminate.
Qed.

(** ** Steps of the build *)

#[local] Instance app_frame_preorder : PreOrder app_frame.
Proof.
  split; [by intros s|].
  intros s1 s2 s3 (?&?&?) (?&?&?). unfold app_frame. repeat split; congruence.
Qed.

#[local] Instance cwd_frame_preorder : PreOrder cwd_frame.
Proof. split; [by intros s|]. intros s1 s2 s3. unfold cwd_frame. congruence. Qed.

#[local] Instance world_frame_preorder : PreOrder world_frame.
Proof. split; [by intros s|]. intros s1 s2 s3. unfold world_frame. congruence. Qed.

Section Preserves.

Context (R : relation (App * World)) `{!PreOrder R}.

Lemma preserves_ret {A} (a : A) : preserves R (ret a).
Proof. by intros s. Qed.

Lemma preserves_return {A} : preserves R (@return_ A).
Proof. by intros s. Qed.

Lemma preserves_bind {A B} (m : M A) (k : A -> M B) :
  preserves R m -> (∀ a, preserves R (k a)) -> preserves R (bind m k).
Proof.
  intros Hm Hk s. unfold bind. specialize (Hm s).
  destruct (m s) as [[a| |e] s']; simpl in *; [|done..].
  etrans; [exact Hm|apply Hk].
Qed.

Lemma preserves_try_except {A} (body : M A) handler :
  preserves R body ->
  (∀ e h, handler e = Some h -> preserves R h) ->
  preserves R (try_except body handler).
Proof.
  intros Hb Hh s. unfold try_except. specialize (Hb s).
  destruct (body s) as [[a| |e] s']; simpl in *; [done..|].
  destruct (handler e) as [h|] eqn:E; [|done].
  etrans; [exact Hb|by eapply Hh].
Qed.

End Preserves.

Section BuildFacts.

Variable path_str : Path -> string.

(** What each step of the build keeps: the file sets and the selection
    ([app_frame]) always; the working directory ([cwd_frame]) and the
    world ([world_frame]) where the step does not touch them. *)
Lemma set_status_app text : preserves app_frame (set_status text).
Proof. by intros [self w]. Qed.

Lemma showerror_app title message : preserves app_frame (showerror title message).
Proof. by intros [self w]. Qed.

Lemma showinfo_app title message : preserves app_frame (showinfo title message).
Proof. by intros [self w]. Qed.

Lemma askyesno_app title message answer :
  preserves app_frame (askyesno title message answer).
Proof. by intros [self w]. Qed.

Lemma copy2_app src dst : preserves app_frame (copy2 path_str src dst).
Proof. intros [self w]. unfold copy2. simpl. by destruct (files w !! src). Qed.

Lemma write_text_app p text : preserves app_frame (write_text p text).
Proof. by intros [self w]. Qed.

Lemma path_exists_app p : preserves app_frame (path_exists p).
Proof. by intros [self w]. Qed.

Lemma getcwd_app : preserves app_frame getcwd.
Proof. by intros [self w]. Qed.

Lemma get_selected_directory_app : preserves app_frame get_selected_directory.
Proof. by intros [self w]. Qed.

Lemma get_selected_directory_cwd : preserves cwd_frame get_selected_directory.
Proof. by intros [self w]. Qed.

Lemma chdir_app directory : preserves app_frame (chdir directory).
Proof. by intros [self w]. Qed.

Lemma subprocess_run_app r : preserves app_frame (subprocess_run r).
Proof. intros [self w]. by destruct r. Qed.

Lemma set_status_cwd text : preserves cwd_frame (set_status text).
Proof. by intros [self w]. Qed.

Lemma showinfo_cwd title message : preserves cwd_frame (showinfo title message).
Proof. by intros [self w]. Qed.

Lemma showerror_cwd title message : preserves cwd_frame (showerror title message).
Proof. by intros [self w]. Qed.

Lemma askyesno_cwd title message answer :
  preserves cwd_frame (askyesno title message answer).
Proof. by intros [self w]. Qed.

Lemma copy2_cwd src dst : preserves cwd_frame (copy2 path_str src dst).
Proof. intros [self w]. unfold copy2. simpl. by destruct (files w !! src). Qed.

Lemma path_exists_cwd p : preserves cwd_frame (path_exists p).
Proof. by intros [self w]. Qed.

Lemma set_status_world text : preserves world_frame (set_status text).
Proof. by intros [self w]. Qed.

Lemma showerror_world title message :
  preserves world_frame (showerror title message).
Proof. by intros [self w]. Qed.

Create HintDb frame discriminated.

#[local] Hint Resolve preserves_ret preserves_return
  set_status_app showerror_app showinfo_app askyesno_app copy2_app
  write_text_app path_exists_app getcwd_app chdir_app subprocess_run_app
  set_status_cwd showinfo_cwd showerror_cwd askyesno_cwd copy2_cwd
  path_exists_cwd set_status_world showerror_world
  get_selected_directory_app get_selected_directory_cwd : frame.







End BuildFacts.

(** ** The file system *)

Lemma write_all_lookup_ne directory written fs p :
  parent p <> directory -> write_all directory written fs !! p = fs !! p.
Proof.
  intros Hp. unfold write_all. revert fs.
  induction written as [|[n c] l IH]; intros fs; simpl; [done|].
  rewrite IH. apply lookup_insert_ne. by intros <-.
Qed.

Lemma staged_files_lookup_ne temp directive cx ct cd fs p :
  parent p <> temp ->
  staged_files temp directive cx ct cd fs !! p = fs !! p.
Proof.
  intros Hp. unfold staged_files.
  rewrite !lookup_insert_ne; [done|by intros <-..].
Qed.

Lemma rmtree_lookup temp w p :
  files (rmtree temp w) !! p
  = if decide (parent p = temp) then None else files w !! p.
Proof.
  unfold rmtree. simpl. destruct (decide (parent p = temp)) as [E|N].
  - apply map_lookup_filter_None. right. intros c _. simpl. by intros [].
  - destruct (files w !! p) as [c|] eqn:E.
    + by apply map_lookup_filter_Some.
    + apply map_lookup_filter_None. by left.
Qed.

(** Leaving the [with] block removes the staging directory and all the
    files in it. *)
Lemma rmtree_absent temp w : staging_absent temp (rmtree temp w).
Proof.
  split.
  - simpl. intros [_ H]%elem_of_difference. apply H. by apply elem_of_singleton.
  - intros p Hp. rewrite rmtree_lookup. by destruct (decide _).
Qed.

(** When the staging directory was not there before and only files in it
    were written, removing it gives back the files there were. *)
Lemma rmtree_restores temp w w' :
  staging_absent temp w ->
  (∀ p, parent p <> temp -> files w' !! p = files w !! p) ->
  files (rmtree temp w') = files w.
Proof.
  intros [_ Habs] Hsame. apply map_eq. intros p. rewrite rmtree_lookup.
  destruct (decide _) as [E|N]; [by rewrite Habs|by apply Hsame].
Qed.

Lemma present_outside_staging temp w p c :
  staging_absent temp w -> files w !! p = Some c -> parent p <> temp.
Proof. intros [_ Habs] Hp E. rewrite (Habs p E) in Hp. done. Qed.



(** ** Running the build *)

Section BuildRuns.

Variable path_str : Path -> string.

(** Staging succeeds when the three source files are there. *)
Lemma stage_ok temp f self w cx ct cd :
  files w !! xml f = Some cx ->
  files w !! txt f = Some ct ->
  files w !! dat f = Some cd ->
  parent (txt f) <> temp -> parent (dat f) <> temp ->
  stage path_str temp f (self, w)
  = (Val tt,
     (with_status "Creating CAB file..." self,
      with_files (staged_files temp (ddf_content (name f)) cx ct cd (files w)) w)).
Proof.
  intros Hx Ht Hd Nt Nd.
  unfold stage, bind, set_status, copy2, write_text. simpl.
  rewrite Hx. simpl.
  rewrite lookup_insert_ne by (intros E; apply Nt; by rewrite <- E).
  rewrite Ht. simpl.
  rewrite !lookup_insert_ne by (intros E; apply Nd; by rewrite <- E).
  rewrite Hd. simpl.
  reflexivity.
Qed.


Lemma run_makecab_nonzero env temp self w stderr written :
  makecab env = ExitNonzero stderr written ->
  run_makecab env temp (self, w)
  = (Return,
     (with_dialog
        (ShowError "Error" ("Failed to create CAB file:" +:+ Str.nl +:+ stderr))
        self,
      mkWorld (write_all temp written (files w)) (temp_dirs w) temp)).
Proof.
  intros H. unfold run_makecab, try_except, bind, getcwd, chdir, subprocess_run.
  simpl. rewrite H. reflexivity.
Qed.

Lemma run_makecab_not_found env temp self w :
  makecab env = NotFound ->
  run_makecab env temp (self, w)
  = (Return,
     (with_dialog
        (ShowError "Error"
           "makecab.exe not found. Please ensure you're running this on Windows.")
        self,
      mkWorld (files w) (temp_dirs w) temp)).
Proof.
  intros H. unfold run_makecab, try_except, bind, getcwd, chdir, subprocess_run.
  simpl. rewrite H. reflexivity.
Qed.

Lemma run_makecab_crashed env temp self w msg :
  makecab env = Crashed msg ->
  run_makecab env temp (self, w)
  = (Raise (OtherError msg), (self, mkWorld (files w) (temp_dirs w) temp)).
Proof.
  intros H. unfold run_makecab, try_except, bind, getcwd, chdir, subprocess_run.
  simpl. rewrite H. reflexivity.
Qed.

(** When a file set is selected the build is the guarded [with] block. *)
Lemma build_ctx_selected env self w i f :
  selected_set_index self = Some i -> file_sets self !! i = Some f ->
  build_ctx path_str env self w
  = match
      try_except
        (with_temporary_directory (temp_dir env) (cleanup_error env)
           (build_body path_str env f))
        (fun e =>
           Some (bind (showerror "Error"
                         ("An error occurred:" +:+ Str.nl +:+ exn_str e))
                      (fun _ => set_status "Error occurred during build")))
        (self, w)
    with
    | (Raise e, s) => (Uncaught e, s)
    | (_, s) => (Returned, s)
    end.
Proof. intros Hi Hf. unfold build_ctx. by rewrite Hi, Hf. Qed.

(** The body of the [with] block up to the subprocess, when the sources
    are there: the state in which the rest runs. *)
Lemma build_body_staged env f self w cx ct cd :
  staging_absent (temp_dir env) w ->
  files w !! xml f = Some cx ->
  files w !! txt f = Some ct ->
  files w !! dat f = Some cd ->
  build_body path_str env f (self, mkdtemp (temp_dir env) w)
  = bind (run_makecab env (temp_dir env))
         (fun _ => finalize path_str env (temp_dir env) f)
      (with_status "Creating CAB file..." self,
       mkWorld (staged_files (temp_dir env) (ddf_content (name f)) cx ct cd (files w))
               (temp_dirs w ∪ {[ temp_dir env ]}) (cwd w)).
Proof.
  intros Habs Hx Ht Hd. unfold build_body. cbv zeta. unfold bind at 1.
  rewrite (stage_ok _ _ _ _ cx ct cd); try done.
  - by eapply present_outside_staging.
  - by eapply present_outside_staging.
Qed.

(** The build from the way the body of the [with] block ends: the
    staging directory is removed, unless the platform refuses, and an
    exception is reported. *)
Lemma build_ctx_of_body env self w i f r self1 w1 :
  selected_set_index self = Some i -> file_sets self !! i = Some f ->
  build_body path_str env f (self, mkdtemp (temp_dir env) w) = (r, (self1, w1)) ->
  build_ctx path_str env self w
  = (Returned,
     match cleanup_refused env w1 with
     | Some msg =>
         (report_exception (OtherError msg) self1, clear_tree (temp_dir env) w1)
     | None =>
         (match r with
          | Raise e => report_exception e self1
          | _ => self1
          end,
          rmtree (temp_dir env) w1)
     end).
Proof.
  intros Hi Hf Hb. rewrite (build_ctx_selected _ _ _ _ _ Hi Hf).
  unfold try_except, with_temporary_directory, cleanup_refused.
  cbn [fst snd]. rewrite Hb. cbn [fst snd].
  destruct (cleanup_error env) as [msg|]; [|by destruct r].
  destruct (String.eqb (cwd w1) (temp_dir env)); [done|by destruct r].
Qed.

Lemma cleanup_refused_elsewhere env w :
  cwd w <> temp_dir env -> cleanup_refused env w = None.
Proof.
  intros Hne. unfold cleanup_refused. destruct (cleanup_error env); [|done].
  by destruct (String.eqb_spec (cwd w) (temp_dir env)).
Qed.

Lemma cleanup_refused_inside env w :
  cwd w = temp_dir env -> cleanup_refused env w = cleanup_error env.
Proof.
  intros E. unfold cleanup_refused. destruct (cleanup_error env); [|done].
  by rewrite E, String.eqb_refl.
Qed.



End BuildRuns.

(** ** Claims about the archive stager *)

(** C2.  When the compressor exits with a nonzero status or is missing,
    the build returns after an error dialog and the files are what they
    were before the build: no [.ctx] file is created or modified. *)
Theorem build_aborts_on_compressor_failure path_str env self w i f cx ct cd
    (Habs : staging_absent (temp_dir env) w)
    (Hsel : selected_set_index self = Some i)
    (Hf : file_sets self !! i = Some f)
    (Hx : files w !! xml f = Some cx)
    (Ht : files w !! txt f = Some ct)
    (Hd : files w !! dat f = Some cd)
    (Hfail : (∃ stderr written, makecab env = ExitNonzero stderr written)
             ∨ makecab env = NotFound) :
  ∃ self' w' message later,
    build_ctx path_str env self w = (Returned, (self', w')) ∧
    dialogs self' = dialogs self ++ ShowError "Error" message :: later ∧
    files w' = files w ∧
    files w' !! ctx_path self f = files w !! ctx_path self f.
Proof.
  pose proof (build_body_staged path_str env f self w cx ct cd Habs Hx Ht Hd)
    as Hb.
  unfold bind at 1 in Hb.
  assert (∃ message written,
            build_body path_str env f (self, mkdtemp (temp_dir env) w)
            = (Return,
               (with_dialog (ShowError "Error" message)
                  (with_status "Creating CAB file..." self),
                mkWorld
                  (write_all (temp_dir env) written
                     (staged_files (temp_dir env) (ddf_content (name f))
                        cx ct cd (files w)))
                  (temp_dirs w ∪ {[ temp_dir env ]}) (temp_dir env))))
    as (message & written & Hbody).
  { destruct Hfail as [(stderr & written & Hrun)|Hrun].
    - rewrite (run_makecab_nonzero _ _ _ _ _ _ Hrun) in Hb. by do 2 eexists.
    - rewrite (run_makecab_not_found _ _ _ _ Hrun) in Hb.
      eexists. by exists []. }
  clear Hb.
  rewrite (build_ctx_of_body _ _ _ _ _ _ _ _ _ Hsel Hf Hbody).
  match goal with |- context [cleanup_refused env ?w1] =>
    assert (files (rmtree (temp_dir env) w1) = files w) as Hfiles
  end.
  { apply rmtree_restores; [done|]. intros p Hp. simpl.
    by rewrite write_all_lookup_ne, staged_files_lookup_ne. }
  destruct (cleanup_refused env _) as [msg|].
  - do 2 eexists. exists message. eexists. split; [reflexivity|].
    split; [cbn; by rewrite <- app_assoc|].
    change (files (clear_tree ?t ?w)) with (files (rmtree t w)).
    cbn [snd]. by rewrite Hfiles.
  - do 2 eexists. exists message, []. split; [reflexivity|].
    split; [done|]. cbn [snd]. by rewrite Hfiles.
Qed.

(** A decidable way to see that a staging directory is not there. *)
Lemma staging_absent_intro temp w :
  temp ∉ temp_dirs w ->
  map_Forall (fun p _ => parent p <> temp) (files w) ->
  staging_absent temp w.
Proof.
  intros Hd Hf. split; [done|]. intros p Hp.
  destruct (files w !! p) as [c|] eqn:E; [|done].
  by destruct (Hf p c E).
Qed.

Lemma leopard_staging_absent old r answer :
  staging_absent (temp_dir (leopard_env r answer)) (leopard_world old).
Proof.
  apply staging_absent_intro; [destruct old; compute_done|].
  destruct old; compute_done.
Defined.

Lemma leopard_app_selected :
  selected_set_index leopard_app = Some 0%nat ∧
  file_sets leopard_app !! 0%nat = Some leopard_set ∧
  selected_directory leopard_app = "C:/data".
Proof. vm_compute. done. Qed.

Lemma build_aborts_on_compressor_failure_witness :
  ∃ self' w' message later,
    build_ctx slash_str (leopard_env NotFound false) leopard_app
      (leopard_world (Some "old"))
    = (Returned, (self', w')) ∧
    dialogs self' = dialogs leopard_app ++ ShowError "Error" message :: later ∧
    files w' = files (leopard_world (Some "old")) ∧
    files w' !! ctx_path leopard_app leopard_set
    = files (leopard_world (Some "old")) !! ctx_path leopard_app leopard_set.
Proof.
  apply (build_aborts_on_compressor_failure slash_str
           (leopard_env NotFound false) leopard_app (leopard_world (Some "old"))
           0%nat leopard_set "<info/>" "elements" "sightings").
  - apply leopard_staging_absent.
  - reflexivity.
  - reflexivity.
  - vm_compute; reflexivity.
  - vm_compute; reflexivity.
  - vm_compute; reflexivity.
  - right. reflexivity.
Defined.



(** X14.  However the build ends, nothing of the staging directory is
    left, unless the build ends with the process in the staging directory
    on a platform that does not remove a working directory. *)
Lemma staging_removed_unless_refused path_str env self w :
  staging_absent (temp_dir env) w ->
  let w' := (build_ctx path_str env self w).2.2 in
  staging_absent (temp_dir env) w'
  ∨ (is_Some (cleanup_error env) ∧ cwd w' = temp_dir env).
Proof.
  intros Habs. cbv zeta.
  destruct (selected_set_index self) as [i|] eqn:Hsel.
  2:{ left. unfold build_ctx. by rewrite Hsel. }
  destruct (file_sets self !! i) as [f|] eqn:Hf.
  2:{ left. unfold build_ctx. by rewrite Hsel, Hf. }
  destruct (build_body path_str env f (self, mkdtemp (temp_dir env) w))
    as [r [self1 w1]] eqn:Hb.
  rewrite (build_ctx_of_body _ _ _ _ _ _ _ _ _ Hsel Hf Hb).
  unfold cleanup_refused. destruct (cleanup_error env) as [msg|].
  - destruct (String.eqb_spec (cwd w1) (temp_dir env)) as [E|N].
    + right. split; [by eexists|done].
    + left. apply rmtree_absent.
  - left. apply rmtree_absent.
Qed.

(** C4 fails on the code.  On a platform that does not remove a working
    directory, a build whose subprocess does not exit with status 0 ends
    inside the staging directory (the working directory is restored
    after a successful run only): the directory is still there after the
    build, and the failure of the cleanup is reported in a dialog. *)
Theorem staging_directory_left_after_failed_run
    path_str env self w i f cx ct cd msg
    (Habs : staging_absent (temp_dir env) w)
    (Hsel : selected_set_index self = Some i)
    (Hf : file_sets self !! i = Some f)
    (Hx : files w !! xml f = Some cx)
    (Ht : files w !! txt f = Some ct)
    (Hd : files w !! dat f = Some cd)
    (Hfail : ∀ written, makecab env <> Completed written)
    (Hos : cleanup_error env = Some msg) :
  let result := build_ctx path_str env self w in
  temp_dir env ∈ temp_dirs result.2.2 ∧
  ¬ staging_absent (temp_dir env) result.2.2 ∧
  last (dialogs result.2.1)
  = Some (ShowError "Error" ("An error occurred:" +:+ Str.nl +:+ msg)).
Proof.
  cbv zeta.
  pose proof (build_body_staged path_str env f self w cx ct cd Habs Hx Ht Hd)
    as Hb.
  unfold bind at 1 in Hb.
  assert (∃ r self1 fs,
            build_body path_str env f (self, mkdtemp (temp_dir env) w)
            = (r, (self1,
                   mkWorld fs (temp_dirs w ∪ {[ temp_dir env ]}) (temp_dir env))))
    as (r & self1 & fs & Hbody).
  { destruct (makecab env) as [written|stderr written| |m] eqn:Hrun.
    - by destruct (Hfail written).
    - rewrite (run_makecab_nonzero _ _ _ _ _ _ Hrun) in Hb. by do 3 eexists.
    - rewrite (run_makecab_not_found _ _ _ _ Hrun) in Hb. by do 3 eexists.
    - rewrite (run_makecab_crashed _ _ _ _ _ Hrun) in Hb. by do 3 eexists. }
  clear Hb.
  rewrite (build_ctx_of_body _ _ _ _ _ _ _ _ _ Hsel Hf Hbody).
  rewrite cleanup_refused_inside by done. rewrite Hos. cbn [fst snd].
  assert (temp_dir env ∈ temp_dirs w ∪ {[ temp_dir env ]}) as Hin
    by (apply elem_of_union; right; by apply elem_of_singleton).
  split; [done|]. split; [by intros [Hnot _]|].
  cbn. by rewrite last_snoc.
Qed.

Lemma staging_directory_left_after_failed_run_witness :
  let result :=
    build_ctx slash_str (leopard_env (ExitNonzero "bad" []) false)
      leopard_app (leopard_world None) in
  "C:/Temp/tmp1" ∈ temp_dirs result.2.2 ∧
  ¬ staging_absent "C:/Temp/tmp1" result.2.2 ∧
  last (dialogs result.2.1)
  = Some (ShowError "Error"
            ("An error occurred:" +:+ Str.nl +:+
             "[WinError 32] The process cannot access the file because it is being used by another process: 'C:/Temp/tmp1'")).
Proof.
  apply (staging_directory_left_after_failed_run slash_str
           (leopard_env (ExitNonzero "bad" []) false)
           leopard_app (leopard_world None)
           0%nat leopard_set "<info/>" "elements" "sightings").
  - apply leopard_staging_absent.
  - reflexivity.
  - reflexivity.
  - vm_compute; reflexivity.
  - vm_compute; reflexivity.
  - vm_compute; reflexivity.
  - discriminate.
  - reflexivity.
Defined.



(** The directive is its setting lines followed by the three member
    lines, whatever the name of the file set. *)
Lemma ddf_content_lines name :
  ddf_content name = unlines (ddf_settings name ++ ddf_members).
Proof.
  unfold ddf_content, ddf_settings, ddf_members, quoted.
  cbv [unlines foldr app].
  rewrite !StrFacts.append_assoc. reflexivity.
Qed.

Lemma lines_unlines ls :
  Forall (fun l => Str.contains l (ascii_of_nat 10) = false) ls ->
  Str.lines (unlines ls) = ls.
Proof.
  induction 1 as [|l ls Hl _ IH]; [done|].
  change (unlines (l :: ls)) with (l +:+ Str.nl +:+ unlines ls).
  induction l as [|a l IHl].
  - change (Str.lines (String (ascii_of_nat 10) (unlines ls)) = "" :: ls).
    cbn [Str.lines]. by rewrite Ascii.eqb_refl, IH.
  - change (Str.lines (String a (l +:+ Str.nl +:+ unlines ls)) = String a l :: ls).
    cbn [Str.contains] in Hl. apply orb_false_iff in Hl as [Ha Hl].
    cbn [Str.lines]. rewrite Ha, (IHl Hl). done.
Qed.

Lemma contains_append s1 s2 c :
  Str.contains (s1 +:+ s2) c = Str.contains s1 c || Str.contains s2 c.
Proof.
  induction s1 as [|a s1 IH]; [done|].
  change (Str.contains (String a (s1 +:+ s2)) c
          = Str.contains (String a s1) c || Str.contains s2 c).
  cbn [Str.contains]. by rewrite IH, orb_assoc.
Qed.

(** X15.  Read line by line, the directive of a file set whose name has
    no line break is the twelve settings and then the three members. *)
Lemma ddf_content_read name :
  Str.contains name (ascii_of_nat 10) = false ->
  Str.lines (ddf_content name) = ddf_settings name ++ ddf_members.
Proof.
  intros Hn. rewrite ddf_content_lines. apply lines_unlines.
  unfold ddf_settings, ddf_members.
  repeat (apply Forall_cons; split;
          [first [by vm_compute | by rewrite !contains_append, Hn]|]).
  apply Forall_nil_2.
Qed.



(** ** The file sets over the life of the application *)





(** ** From the scan to the built file *)






Example leopard_ctx_name :
  stem (xml leopard_set) +:+ ".ctx" = "Leopard.ctx".
Proof. vm_compute. reflexivity. Qed.

(** * Further properties *)

(** ** More on the set matcher *)

Lemma match_loop_app fl xs ys txt_files dat_files acc :
  match_loop fl (xs ++ ys) txt_files dat_files acc
  = match_loop fl ys txt_files dat_files
      (match_loop fl xs txt_files dat_files acc).
Proof. unfold match_loop. by rewrite foldl_app. Qed.


Section NoSkip.

Variable fl : flavour.
Variables txt_files dat_files : list Path.
Hypothesis txt_files_ext : ∀ t, In t txt_files -> is_ext ".txt" t = true.
Hypothesis dat_files_ext : ∀ d, In d dat_files -> is_ext ".dat" d = true.


End NoSkip.


Lemma filter_sublist {A} (P : A -> bool) (l : list A) :
  sublist (List.filter P l) l.
Proof.
  induction l as [|x l IH]; simpl; [constructor|].
  destruct (P x); by constructor.
Qed.




Section Keys.

Variable fl : flavour.
Variables txt_files dat_files : list Path.

Lemma match_loop_keys xs acc :
  (∀ f, In f acc.1 -> normcase fl (xml f) ∈ acc.2) ->
  NoDup ((fun f => normcase fl (xml f)) <$> acc.1) ->
  NoDup ((fun f => normcase fl (xml f))
           <$> (match_loop fl xs txt_files dat_files acc).1).
Proof.
  revert acc. induction xs as [|x xs IH]; intros acc Hin Hnd; [done|].
  change (match_loop fl (x :: xs) txt_files dat_files acc)
    with (match_loop fl xs txt_files dat_files
            (match_step fl txt_files dat_files acc x)).
  destruct (match_step_cases fl txt_files dat_files acc x)
    as [->|(t & d & _ & _ & Hnew & ->)]; [by apply IH|].
  apply IH; cbn [fst snd].
  - intros f [Hf|[<-|[]]]%in_app_iff; [|set_solver].
    specialize (Hin f Hf). set_solver.
  - rewrite fmap_app. apply NoDup_app. split; [done|]. split.
    + intros k (f & -> & Hf%list_elem_of_In)%list_elem_of_fmap.
      simpl. intros E%list_elem_of_singleton. apply Hnew. rewrite <- E.
      by apply Hin.
    + simpl. apply NoDup_singleton.
Qed.

(** The sets of the loop come in the order of the [.xml] files. *)
Lemma match_loop_order xs acc :
  ∃ l, (match_loop fl xs txt_files dat_files acc).1 = acc.1 ++ l
       ∧ sublist (xml <$> l) xs.
Proof.
  revert acc. induction xs as [|x xs IH]; intros acc.
  { exists []. split; [by rewrite app_nil_r|constructor]. }
  change (match_loop fl (x :: xs) txt_files dat_files acc)
    with (match_loop fl xs txt_files dat_files
            (match_step fl txt_files dat_files acc x)).
  destruct (IH (match_step fl txt_files dat_files acc x)) as (l & -> & Hl).
  destruct (match_step_cases fl txt_files dat_files acc x)
    as [->|(t & d & _ & _ & _ & ->)].
  - exists l. split; [done|by constructor].
  - eexists (_ :: l). cbn [fst]. rewrite <- app_assoc. split; [done|].
    simpl. by constructor.
Qed.

End Keys.

(** X2.  No [.xml] file is reported in two sets: the [.xml] paths of
    the reported sets are pairwise different, also for [pathlib]'s
    case-folding comparison on Windows. *)
Theorem scan_reports_no_xml_twice fl directory listing :
  NoDup ((fun f => normcase fl (xml f)) <$> matched_sets fl directory listing).
Proof.
  rewrite matched_sets_eq. apply match_loop_keys; [by intros f []|].
  simpl. apply NoDup_nil_2.
Qed.

Lemma entry_of_paths directory listing ext :
  entry_of <$> paths_of directory (List.filter (has_ext ext) listing)
  = List.filter (has_ext ext) listing.
Proof.
  induction listing as [|[n b] l IH]; [done|]. cbn [List.filter].
  destruct (has_ext ext (n, b)) eqn:E; [|exact IH].
  cbn. f_equal; [|exact IH].
  unfold has_ext in E. simpl in E. by destruct b.
Qed.

(** X3.  The reported sets come in the order in which the directory
    yields their [.xml] entries: these entries, in the order of the
    sets, are a sub-list of the listing. *)
Theorem scan_keeps_listing_order fl directory listing :
  sublist ((fun f => entry_of (xml f)) <$> matched_sets fl directory listing)
          listing.
Proof.
  rewrite matched_sets_eq.
  destruct (match_loop_order fl
              (paths_of directory (List.filter (has_ext ".txt") listing))
              (paths_of directory (List.filter (has_ext ".dat") listing))
              (paths_of directory (List.filter (has_ext ".xml") listing))
              ([], ∅)) as (l & -> & Hl).
  simpl. etrans; [|apply (filter_sublist (has_ext ".xml"))].
  rewrite <- (entry_of_paths directory listing ".xml").
  change (fun f => entry_of (xml f)) with (entry_of ∘ xml).
  rewrite (list_fmap_compose xml entry_of). by apply fmap_sublist.
Qed.

Lemma filter_relevant ext listing :
  ext = ".xml" ∨ ext = ".txt" ∨ ext = ".dat" ->
  List.filter (has_ext ext) (List.filter relevant listing)
  = List.filter (has_ext ext) listing.
Proof.
  intros Hext. induction listing as [|e l IH]; [done|]. cbn [List.filter].
  destruct (relevant e) eqn:Er.
  - cbn [List.filter]. by rewrite IH.
  - rewrite IH. unfold relevant in Er.
    apply orb_false_iff in Er as [[Ex Et]%orb_false_iff Ed].
    by destruct Hext as [->|[->| ->]]; rewrite ?Ex, ?Et, ?Ed.
Qed.

(** X4.  Entries that are not regular files, and files with another
    extension, do not matter: the scan of a directory reports what the
    scan of its [.xml], [.txt] and [.dat] files alone reports. *)
Theorem scan_ignores_other_entries fl directory listing :
  matched_sets fl directory listing
  = matched_sets fl directory (List.filter relevant listing).
Proof. rewrite !matched_sets_eq, !filter_relevant; auto. Qed.


Lemma find_first {A} (P : A -> bool) (l : list A) (x : A) :
  List.find P l = Some x ->
  ∃ l1 l2, l = l1 ++ x :: l2 ∧ ∀ y, In y l1 -> P y = false.
Proof.
  induction l as [|a l IH]; [done|]. simpl.
  destruct (P a) eqn:Ea.
  - intros [= ->]. exists [], l. split; [done|]. by intros y [].
  - intros (l1 & l2 & -> & Hl1)%IH. exists (a :: l1), l2. split; [done|].
    intros y [<-|Hy]; [done|by apply Hl1].
Qed.

(** X6.  First match wins: the [.txt] file of a reported set is the
    first [.txt] file of the listing whose base name is, up to case, the
    name of the set, and likewise its [.dat] file. *)
Theorem scan_takes_first_companion fl directory listing f
    (Hin : In f (matched_sets fl directory listing)) :
  (∃ before after,
      paths_of directory (List.filter (has_ext ".txt") listing)
      = before ++ txt f :: after ∧
      ∀ t, In t before -> base_of t <> Str.lower (name f)) ∧
  (∃ before after,
      paths_of directory (List.filter (has_ext ".dat") listing)
      = before ++ dat f :: after ∧
      ∀ d, In d before -> base_of d <> Str.lower (name f)).
Proof.
  rewrite matched_sets_eq in Hin.
  apply match_loop_sound in Hin as [[]|(_ & _ & Ht & Hd)].
  split.
  - apply find_first in Ht as (l1 & l2 & E & Hl1). exists l1, l2.
    split; [done|]. intros t Hn%Hl1. by apply String.eqb_neq in Hn.
  - apply find_first in Hd as (l1 & l2 & E & Hl1). exists l1, l2.
    split; [done|]. intros t Hn%Hl1. by apply String.eqb_neq in Hn.
Qed.

Lemma scan_takes_first_companion_witness :
  let listing :=
    [("b.TXT", true); ("a.txt", true); ("A.txt", true);
     ("a.xml", true); ("a.dat", true)] in
  let f := mkFileSet "a" (mkPath "d" "a.xml") (mkPath "d" "a.txt")
             (mkPath "d" "a.dat") in
  (∃ before after,
      paths_of "d" (List.filter (has_ext ".txt") listing)
      = before ++ txt f :: after ∧
      ∀ t, In t before -> base_of t <> Str.lower (name f)) ∧
  (∃ before after,
      paths_of "d" (List.filter (has_ext ".dat") listing)
      = before ++ dat f :: after ∧
      ∀ d, In d before -> base_of d <> Str.lower (name f)).
Proof.
  apply (scan_takes_first_companion Posix "d"
           [("b.TXT", true); ("a.txt", true); ("A.txt", true);
            ("a.xml", true); ("a.dat", true)]).
  vm_compute. by left.
Defined.

(** ** Stems and extensions *)

Lemma endswith_spec s e : Str.endswith s e = true -> ∃ pre, s = pre +:+ e.
Proof.
  induction s as [|c s IH].
  - rewrite StrFacts.endswith_nil. intros <-%String.eqb_eq. by exists "".
  - rewrite StrFacts.endswith_cons.
    intros [<-%String.eqb_eq|(pre & ->)%IH]%orb_true_iff.
    + by exists "".
    + by exists (String c pre).
Qed.

Lemma length_append s1 s2 :
  String.length (s1 +:+ s2) = (String.length s1 + String.length s2)%nat.
Proof.
  induction s1 as [|c s1 IH]; [done|].
  change (S (String.length (s1 +:+ s2))
          = S (String.length s1 + String.length s2)). by rewrite IH.
Qed.

Lemma rfind_lower_bound s c : -1 <= Str.rfind s c.
Proof.
  induction s as [|a s IH]; simpl; [lia|].
  destruct (0 <=? Str.rfind s c) eqn:E; [lia|].
  destruct (Ascii.eqb a c); lia.
Qed.

Lemma rfind_append s1 s2 c :
  0 <= Str.rfind s2 c ->
  Str.rfind (s1 +:+ s2) c = Str.len s1 + Str.rfind s2 c.
Proof.
  intros H2. unfold Str.len. induction s1 as [|a s1 IH].
  { change (Str.rfind s2 c = 0 + Str.rfind s2 c). lia. }
  change (Str.rfind (String a (s1 +:+ s2)) c
          = Z.of_nat (S (String.length s1)) + Str.rfind s2 c).
  cbn [Str.rfind]. rewrite IH.
  destruct (0 <=? _) eqn:E; [lia|]. apply Z.leb_gt in E. lia.
Qed.

(** X7.  The stem of a file that the scan classifies is its name without
    the last four characters, in the casing of the name; a file whose
    whole name is the extension (as [.xml]) keeps its name as stem. *)
Theorem stem_of_classified ext p
    (Hext : ext = ".xml" ∨ ext = ".txt" ∨ ext = ".dat")
    (Hp : is_ext ext p = true) :
  stem p
  = if (4 <? String.length (pname p))%nat
    then substring 0 (String.length (pname p) - 4) (pname p)
    else pname p.
Proof.
  unfold is_ext in Hp. apply endswith_spec in Hp as (pre & Hpre).
  assert (String.length ext = 4%nat ∧ Str.rfind ext "." = 0) as [Hlen Hdot]
    by (by destruct Hext as [->|[->| ->]]).
  assert (String.length (pname p) = (String.length pre + 4)%nat) as Hn.
  { by rewrite <- (StrFacts.lower_length (pname p)), Hpre, length_append, Hlen. }
  assert (Str.rfind (pname p) "." = Z.of_nat (String.length pre)) as Hr.
  { rewrite <- StrFacts.rfind_lower, Hpre, rfind_append by lia.
    unfold Str.len. lia. }
  unfold stem, Str.len, Str.slice_to. cbv zeta. rewrite Hr, Hn.
  destruct (String.length pre) as [|k] eqn:Ek.
  - simpl. done.
  - replace (0 <? Z.of_nat (S k)) with true by (symmetry; apply Z.ltb_lt; lia).
    replace (Z.of_nat (S k) <? Z.of_nat (S k + 4) - 1) with true
      by (symmetry; apply Z.ltb_lt; lia).
    replace (4 <? S k + 4)%nat with true by (symmetry; apply Nat.ltb_lt; lia).
    cbn [andb]. rewrite Nat2Z.id. f_equal. lia.
Qed.

Lemma stem_of_classified_witness :
  stem (mkPath "d" "Survey.2024.XML")
  = if (4 <? String.length (pname (mkPath "d" "Survey.2024.XML")))%nat
    then substring 0 (String.length (pname (mkPath "d" "Survey.2024.XML")) - 4)
           (pname (mkPath "d" "Survey.2024.XML"))
    else pname (mkPath "d" "Survey.2024.XML").
Proof.
  apply (stem_of_classified ".xml" (mkPath "d" "Survey.2024.XML")).
  - by left.
  - vm_compute; reflexivity.
Defined.

(** Two [.xml] files named [a] and [A] get the one [.txt] and the one
    [.dat] file. *)
Lemma matched_sets_same_companions_witness :
  let listing :=
    [("a.xml", true); ("A.xml", true); ("a.txt", true); ("a.dat", true)] in
  let f := mkFileSet "a" (mkPath "d" "a.xml") (mkPath "d" "a.txt")
             (mkPath "d" "a.dat") in
  let g := mkFileSet "A" (mkPath "d" "A.xml") (mkPath "d" "a.txt")
             (mkPath "d" "a.dat") in
  txt f = txt g ∧ dat f = dat g.
Proof.
  apply (matched_sets_same_companions Posix "d"
           [("a.xml", true); ("A.xml", true); ("a.txt", true); ("a.dat", true)]).
  - vm_compute. by left.
  - vm_compute. right. by left.
  - reflexivity.
Defined.

(** ** More on the archive stager *)

#[local] Instance build_frame_preorder temp f : PreOrder (build_frame temp f).
Proof.
  split.
  - by intros s.
  - intros s1 s2 s3 [Hd12 H12] [Hd23 H23]. split; [congruence|].
    intros p Hp Hc. rewrite H23, H12; try done.
    unfold ctx_path in *. by rewrite Hd12.
Qed.

Section BuildFrame.

Variable path_str : Path -> string.
Variable temp : string.
Variable f : FileSet.








End BuildFrame.



Section BuildErrors.

Variable path_str : Path -> string.

(** The text of the exception for a file that is not there. *)
Local Abbreviation no_such_file p :=
  ("[Errno 2] No such file or directory: '" +:+ path_str p +:+ "'").

(** Staging stops at the first source that is not there. *)
Lemma stage_missing temp f self w :
  parent (txt f) <> temp -> parent (dat f) <> temp ->
  files w !! xml f = None ∨ files w !! txt f = None ∨ files w !! dat f = None ->
  ∃ missing fs,
    stage path_str temp f (self, w)
    = (Raise (FileNotFoundError (no_such_file missing)),
       (with_status "Copying and renaming files..." self, with_files fs w)) ∧
    In missing [xml f; txt f; dat f] ∧
    files w !! missing = None ∧
    (∀ p, parent p <> temp -> fs !! p = files w !! p).
Proof.
  intros Nt Nd Hmissing.
  unfold stage, bind, set_status, copy2, write_text. cbn [fst snd].
  destruct (files w !! xml f) as [cx|] eqn:Hx.
  2:{ exists (xml f), (files w). split; [by destruct w|]. simpl. auto. }
  cbn [fst snd files with_files].
  rewrite lookup_insert_ne by (intros E; apply Nt; by rewrite <- E).
  destruct (files w !! txt f) as [ct|] eqn:Ht.
  2:{ eexists (txt f), _. split; [reflexivity|]. simpl.
      split; [auto|]. split; [done|]. intros p Hp.
      apply lookup_insert_ne. by intros <-. }
  cbn [fst snd files with_files].
  rewrite !lookup_insert_ne by (intros E; apply Nd; by rewrite <- E).
  destruct (files w !! dat f) as [cd|] eqn:Hd.
  { by destruct Hmissing as [|[|]]. }
  eexists (dat f), _. split; [reflexivity|]. simpl.
  split; [auto|]. split; [done|]. intros p Hp.
  rewrite !lookup_insert_ne; [done|by intros <-..].
Qed.





End BuildErrors.

(** X10.  When a file of the selected set is gone (removed after the
    scan), the build copies nothing to the destination: it reports the
    first missing file in an error dialog, sets the status to "Error
    occurred during build", and leaves the files, the working directory
    and no staging directory behind. *)
Theorem build_reports_missing_source path_str env self w i f
    (Habs : staging_absent (temp_dir env) w)
    (Hcwd : cwd w <> temp_dir env)
    (Hsel : selected_set_index self = Some i)
    (Hf : file_sets self !! i = Some f)
    (Ntxt : parent (txt f) <> temp_dir env)
    (Ndat : parent (dat f) <> temp_dir env)
    (Hmissing : files w !! xml f = None ∨ files w !! txt f = None
                ∨ files w !! dat f = None) :
  ∃ self' w' missing,
    build_ctx path_str env self w = (Returned, (self', w')) ∧
    In missing [xml f; txt f; dat f] ∧ files w !! missing = None ∧
    dialogs self'
    = dialogs self
      ++ [ShowError "Error"
            ("An error occurred:" +:+ Str.nl +:+
             "[Errno 2] No such file or directory: '" +:+ path_str missing
             +:+ "'")] ∧
    status_label self' = "Error occurred during build" ∧
    files w' = files w ∧ cwd w' = cwd w ∧
    staging_absent (temp_dir env) w'.
Proof.
  destruct (stage_missing path_str (temp_dir env) f self
              (mkdtemp (temp_dir env) w) Ntxt Ndat Hmissing)
    as (missing & fs & Hstage & Hin & Hnone & Hfs).
  assert (build_body path_str env f (self, mkdtemp (temp_dir env) w)
          = (Raise (FileNotFoundError
                      ("[Errno 2] No such file or directory: '"
                       +:+ path_str missing +:+ "'")),
             (with_status "Copying and renaming files..." self,
              with_files fs (mkdtemp (temp_dir env) w)))) as Hb.
  { unfold build_body. cbv zeta. unfold bind at 1. by rewrite Hstage. }
  rewrite (build_ctx_of_body _ _ _ _ _ _ _ _ _ Hsel Hf Hb).
  rewrite cleanup_refused_elsewhere by done.
  do 2 eexists. exists missing. split; [reflexivity|].
  split; [done|]. split; [done|]. split; [done|]. split; [done|].
  split; [|split; [done|apply rmtree_absent]].
  apply rmtree_restores; [done|]. intros p Hp. by apply Hfs.
Qed.

Lemma build_reports_missing_source_witness :
  ∃ self' w' missing,
    build_ctx slash_str (leopard_env NotFound true) leopard_app
      (mkWorld (delete (mkPath "C:/data" "leopard.txt")
                  (files (leopard_world None))) ∅ "C:/tool")
    = (Returned, (self', w')) ∧
    In missing [xml leopard_set; txt leopard_set; dat leopard_set] ∧
    files (mkWorld (delete (mkPath "C:/data" "leopard.txt")
                      (files (leopard_world None))) ∅ "C:/tool")
      !! missing = None ∧
    dialogs self'
    = dialogs leopard_app
      ++ [ShowError "Error"
            ("An error occurred:" +:+ Str.nl +:+
             "[Errno 2] No such file or directory: '" +:+ slash_str missing
             +:+ "'")] ∧
    status_label self' = "Error occurred during build" ∧
    files w'
    = files (mkWorld (delete (mkPath "C:/data" "leopard.txt")
                        (files (leopard_world None))) ∅ "C:/tool") ∧
    cwd w' = "C:/tool" ∧
    staging_absent "C:/Temp/tmp1" w'.
Proof.
  apply (build_reports_missing_source slash_str (leopard_env NotFound true)
           leopard_app
           (mkWorld (delete (mkPath "C:/data" "leopard.txt")
                       (files (leopard_world None))) ∅ "C:/tool")
           0%nat leopard_set).
  - apply staging_absent_intro; compute_done.
  - discriminate.
  - reflexivity.
  - reflexivity.
  - discriminate.
  - discriminate.
  - right. left. vm_compute; reflexivity.
Defined.




(** X13.  A scan does not reset the selected index (and leaves the
    build button enabled when it finds file sets).  After a scan that
    finds no more than [i] sets, a build with the index [i] selected
    earlier ends in an uncaught [IndexError] and does nothing. *)
Theorem build_after_rescan_with_stale_index
    path_str fl directory listing self env w i
    (Hi : selected_set_index self = Some i)
    (Hfew : (length (matched_sets fl directory listing) <= i)%nat) :
  let self' := scan_for_file_sets fl directory listing self in
  selected_set_index self' = Some i ∧
  (matched_sets fl directory listing <> [] -> build_btn self' = build_btn self) ∧
  build_ctx path_str env self' w = (Uncaught IndexError, (self', w)).
Proof.
  cbv zeta.
  assert (selected_set_index (scan_for_file_sets fl directory listing self)
          = Some i) as Hsel.
  { unfold scan_for_file_sets. by destruct (matched_sets fl directory listing). }
  split; [done|]. split.
  { unfold scan_for_file_sets. by destruct (matched_sets fl directory listing). }
  unfold build_ctx. rewrite Hsel, scan_file_sets.
  by rewrite (lookup_ge_None_2 _ _ Hfew).
Qed.

Lemma build_after_rescan_with_stale_index_witness :
  let self' :=
    scan_for_file_sets Windows "C:/other" [("b.xml", true)] leopard_app in
  selected_set_index self' = Some 0%nat ∧
  (matched_sets Windows "C:/other" [("b.xml", true)] <> [] ->
   build_btn self' = build_btn leopard_app) ∧
  build_ctx slash_str (leopard_env NotFound true) self' (leopard_world None)
  = (Uncaught IndexError, (self', leopard_world None)).
Proof.
  apply (build_after_rescan_with_stale_index slash_str Windows "C:/other"
           [("b.xml", true)] leopard_app (leopard_env NotFound true)
           (leopard_world None) 0%nat).
  - reflexivity.
  - vm_compute. lia.
Defined.

(** A failed run on a platform that removes a working directory. *)
Lemma staging_removed_unless_refused_witness :
  let w' :=
    (build_ctx slash_str
       (mkEnv "/tmp/tmp1" (ExitNonzero "bad" []) true None)
       leopard_app (leopard_world None)).2.2 in
  staging_absent "/tmp/tmp1" w'
  ∨ (is_Some (@None string) ∧ cwd w' = "/tmp/tmp1").
Proof.
  apply (staging_removed_unless_refused slash_str
           (mkEnv "/tmp/tmp1" (ExitNonzero "bad" []) true None)
           leopard_app (leopard_world None)).
  apply staging_absent_intro; compute_done.
Defined.

(** The directive of the example. *)
Lemma ddf_content_read_witness :
  Str.lines (ddf_content "Leopard") = ddf_settings "Leopard" ++ ddf_members.
Proof. apply (ddf_content_read "Leopard"). reflexivity. Defined.

(** ** The application over a session *)

Section Keeps.

(** A relation between states that does not look at the world, at the
    status line or at the dialogs. *)
Context (R : relation (App * World)) `{!PreOrder R}.
Hypothesis R_world : ∀ self w w', R (self, w) (self, w').
Hypothesis R_status : ∀ self w text, R (self, w) (with_status text self, w).
Hypothesis R_dialog : ∀ self w d, R (self, w) (with_dialog d self, w).

Variable path_str : Path -> string.

Lemma keeps_set_status text : preserves R (set_status text).
Proof. intros [self w]. apply R_status. Qed.

Lemma keeps_showerror title message : preserves R (showerror title message).
Proof. intros [self w]. apply R_dialog. Qed.

Lemma keeps_showinfo title message : preserves R (showinfo title message).
Proof. intros [self w]. apply R_dialog. Qed.

Lemma keeps_askyesno title message answer :
  preserves R (askyesno title message answer).
Proof. intros [self w]. apply R_dialog. Qed.

Lemma keeps_copy2 src dst : preserves R (copy2 path_str src dst).
Proof.
  intros [self w]. unfold copy2. cbn [fst snd].
  destruct (files w !! src); [apply R_world|done].
Qed.

Lemma keeps_write_text p text : preserves R (write_text p text).
Proof. intros [self w]. apply R_world. Qed.

Lemma keeps_path_exists p : preserves R (path_exists p).
Proof. by intros [self w]. Qed.

Lemma keeps_getcwd : preserves R getcwd.
Proof. by intros [self w]. Qed.

Lemma keeps_get_selected_directory : preserves R get_selected_directory.
Proof. by intros [self w]. Qed.

Lemma keeps_chdir directory : preserves R (chdir directory).
Proof. intros [self w]. apply R_world. Qed.

Lemma keeps_subprocess_run r : preserves R (subprocess_run r).
Proof. intros [self w]. destruct r; cbn; first [apply R_world|done]. Qed.

Lemma keeps_stage temp f : preserves R (stage path_str temp f).
Proof.
  unfold stage.
  repeat (apply preserves_bind; [typeclasses eauto| |intros _]);
    auto using keeps_set_status, keeps_copy2, keeps_write_text.
Qed.

Lemma keeps_run_makecab env temp : preserves R (run_makecab env temp).
Proof.
  unfold run_makecab. apply preserves_try_except; [typeclasses eauto| |].
  - apply preserves_bind; [typeclasses eauto|apply keeps_getcwd|intros d].
    apply preserves_bind; [typeclasses eauto|apply keeps_chdir|intros _].
    apply preserves_bind; [typeclasses eauto|apply keeps_subprocess_run|intros _].
    apply keeps_chdir.
  - intros [] h [= <-];
      (apply preserves_bind;
       [typeclasses eauto|apply keeps_showerror|intros _; by apply preserves_return]).
Qed.

Lemma keeps_finalize env temp f : preserves R (finalize path_str env temp f).
Proof.
  unfold finalize. cbv zeta.
  apply preserves_bind; [typeclasses eauto|apply keeps_set_status|intros _].
  apply preserves_bind;
    [typeclasses eauto|apply keeps_get_selected_directory|intros output_dir].
  apply preserves_bind; [typeclasses eauto|apply keeps_path_exists|intros present].
  apply preserves_bind; [typeclasses eauto| |intros _].
  - destruct present; [|by apply preserves_ret].
    apply preserves_bind; [typeclasses eauto|apply keeps_askyesno|intros yes].
    destruct yes; [by apply preserves_ret|].
    apply preserves_bind; [typeclasses eauto|apply keeps_set_status|intros _].
    by apply preserves_return.
  - apply preserves_bind; [typeclasses eauto|apply keeps_copy2|intros _].
    apply preserves_bind; [typeclasses eauto|apply keeps_set_status|intros _].
    apply keeps_showinfo.
Qed.

Lemma keeps_build_body env f : preserves R (build_body path_str env f).
Proof.
  unfold build_body. cbv zeta.
  apply preserves_bind; [typeclasses eauto|apply keeps_stage|intros _].
  apply preserves_bind; [typeclasses eauto|apply keeps_run_makecab|intros _].
  apply keeps_finalize.
Qed.

Lemma keeps_report e self w : R (self, w) (report_exception e self, w).
Proof. unfold report_exception. etrans; [apply R_dialog|apply R_status]. Qed.

(** The build as a whole keeps such a relation. *)
Lemma keeps_build_ctx env self w :
  R (self, w) (build_ctx path_str env self w).2.
Proof.
  destruct (selected_set_index self) as [i|] eqn:Hsel.
  2:{ unfold build_ctx. rewrite Hsel. apply R_dialog. }
  destruct (file_sets self !! i) as [f|] eqn:Hf.
  2:{ unfold build_ctx. by rewrite Hsel, Hf. }
  pose proof (keeps_build_body env f (self, mkdtemp (temp_dir env) w)) as Hfr.
  destruct (build_body path_str env f (self, mkdtemp (temp_dir env) w))
    as [r [self1 w1]] eqn:Hb.
  rewrite (build_ctx_of_body _ _ _ _ _ _ _ _ _ Hsel Hf Hb).
  assert (R (self, w) (self1, w1)) as H1.
  { etrans; [apply (R_world self w (mkdtemp (temp_dir env) w))|exact Hfr]. }
  destruct (cleanup_refused env w1) as [msg|]; cbn [snd].
  - etrans; [exact H1|]. etrans; [apply keeps_report|apply R_world].
  - etrans; [exact H1|]. etrans; [|apply R_world].
    destruct r; [done|done|apply keeps_report].
Qed.

End Keeps.

#[local] Instance widget_frame_preorder : PreOrder widget_frame.
Proof.
  split; [by intros s|].
  intros s1 s2 s3 (?&?&?&?&?) (?&?&?&?&?). unfold widget_frame.
  repeat split; congruence.
Qed.

(** A build writes no widget but the status line and opens dialogs. *)
Lemma build_ctx_widgets path_str env self w :
  widget_frame (self, w) (build_ctx path_str env self w).2.
Proof.
  apply keeps_build_ctx; [typeclasses eauto|..]; intros; by repeat split.
Qed.

Lemma scan_ui_inv fl directory listing self :
  ui_inv self -> ui_inv (scan_for_file_sets fl directory listing self).
Proof.
  intros [_ Hbtn]. unfold scan_for_file_sets.
  by destruct (matched_sets fl directory listing).
Qed.

Lemma reachable_ui_inv fl self : reachable fl self -> ui_inv self.
Proof.
  induction 1 as [|self answer listing _ IH|self selection _ IH Hrow
                  |self path_str env w _ IH _].
  - split; [done|]. by intros [=].
  - unfold browse_directory. destruct (String.eqb answer ""); [done|].
    apply scan_ui_inv. exact IH.
  - destruct IH as [Hbox Hbtn]. unfold on_set_select.
    destruct selection as [i|].
    + destruct (file_sets self !! i); (split; [done|by eexists]).
    + split; [done|]. by intros [=].
  - destruct IH as [Hbox Hbtn].
    destruct (build_ctx_widgets path_str env self w) as (Hs & Hi & Hl & _ & Hb).
    split.
    + by rewrite Hl, Hs.
    + rewrite Hb, Hi. exact Hbtn.
Qed.

(** X16.  In every state the user interface reaches, selecting a row of
    the list box returns: the list box has one row per file set, so the
    row is an index of the file sets and [on_set_select] raises no
    [IndexError]. *)
Theorem select_row_never_raises fl self i
    (Hreach : reachable fl self)
    (Hrow : (i < length (sets_listbox self))%nat) :
  ∃ f, file_sets self !! i = Some f ∧
       on_set_select (Some i) self
       = (Returned,
          mkApp (selected_directory self) (file_sets self) (Some i)
                (sets_listbox self) (info_label self)
                ("Selected: " +:+ name f) true (dialogs self)).
Proof.
  apply reachable_ui_inv in Hreach as [Hbox _].
  rewrite Hbox, length_fmap in Hrow.
  apply lookup_lt_is_Some_2 in Hrow as [f Hf]. exists f. split; [done|].
  unfold on_set_select. by rewrite Hf.
Qed.

Lemma leopard_app_reachable : reachable Windows leopard_app.
Proof.
  unfold leopard_app. apply reach_select.
  - apply reach_browse, reach_init.
  - intros i [= <-]. vm_compute. lia.
Defined.

Lemma select_row_never_raises_witness :
  ∃ f, file_sets leopard_app !! 0%nat = Some f ∧
       on_set_select (Some 0%nat) leopard_app
       = (Returned,
          mkApp (selected_directory leopard_app) (file_sets leopard_app)
                (Some 0%nat) (sets_listbox leopard_app)
                (info_label leopard_app)
                ("Selected: " +:+ name f) true (dialogs leopard_app)).
Proof.
  apply (select_row_never_raises Windows leopard_app 0%nat).
  - apply leopard_app_reachable.
  - vm_compute. lia.
Defined.

(** X17.  In every state the user interface reaches, an enabled build
    button comes with a selected index, so a press of the button does
    not take the "Please select a file set first" branch of [build_ctx]
    (line 175); and a build leaves file sets, selection, list box, info
    label and button as they are. *)
Theorem enabled_button_has_selection fl self path_str env w
    (Hreach : reachable fl self)
    (Hbtn : build_btn self = true) :
  is_Some (selected_set_index self) ∧
  widget_frame (self, w) (build_ctx path_str env self w).2.
Proof.
  apply reachable_ui_inv in Hreach as [_ Hsome].
  split; [by apply Hsome|apply build_ctx_widgets].
Qed.

Lemma enabled_button_has_selection_witness :
  is_Some (selected_set_index leopard_app) ∧
  widget_frame (leopard_app, leopard_world None)
    (build_ctx slash_str (leopard_env NotFound true) leopard_app
       (leopard_world None)).2.
Proof.
  apply (enabled_button_has_selection Windows leopard_app slash_str
           (leopard_env NotFound true) (leopard_world None)).
  - apply leopard_app_reachable.
  - reflexivity.
Defined.

(** ** Dialogs *)

Section Talks.

Variable path_str : Path -> string.

Lemma ends_talking_talks {A} (m : M A) : ends_talking m -> talks m.
Proof.
  intros H s. destruct (H s) as (l & Hl & Hne). exists l. split; [done|].
  intros Hr. apply Hne. intros e. by rewrite Hr.
Qed.

Lemma talks_grows {A} (m : M A) : talks m -> grows m.
Proof. intros H s. destruct (H s) as (l & Hl & _). by exists l. Qed.

Lemma grows_return {A} : grows (@return_ A).
Proof. intros s. exists []. by rewrite app_nil_r. Qed.

(** A step that opens no dialog and does not [return]. *)
Lemma quiet_talks {A} (m : M A) :
  (∀ s, dialogs (m s).2.1 = dialogs s.1 ∧ (m s).1 <> Return) -> talks m.
Proof.
  intros H s. destruct (H s) as [Hd Hr]. exists [].
  split; [by rewrite app_nil_r|done].
Qed.

(** A step that opens one dialog. *)
Lemma dialog_ends_talking {A} (m : M A) :
  (∀ s, ∃ d, dialogs (m s).2.1 = dialogs s.1 ++ [d]) -> ends_talking m.
Proof. intros H s. destruct (H s) as [d Hd]. by exists [d]. Qed.

Lemma talks_bind {A B} (m : M A) (k : A -> M B) :
  talks m -> (∀ a, talks (k a)) -> talks (bind m k).
Proof.
  intros Hm Hk s. unfold bind. destruct (Hm s) as (l1 & Hl1 & Hr1).
  destruct (m s) as [[a| |e] s1]; cbn [fst snd] in *.
  - destruct (Hk a s1) as (l2 & Hl2 & Hr2). exists (l1 ++ l2).
    split; [by rewrite Hl2, Hl1, app_assoc|].
    intros Hr. specialize (Hr2 Hr). by destruct l1, l2.
  - exists l1. split; [done|]. intros _. by apply Hr1.
  - by exists l1.
Qed.

Lemma ends_talking_then {A B} (m : M A) (k : A -> M B) :
  ends_talking m -> (∀ a, grows (k a)) -> ends_talking (bind m k).
Proof.
  intros Hm Hk s. unfold bind. destruct (Hm s) as (l1 & Hl1 & Hr1).
  destruct (m s) as [[a| |e] s1]; cbn [fst snd] in *.
  - destruct (Hk a s1) as (l2 & Hl2). exists (l1 ++ l2).
    split; [by rewrite Hl2, Hl1, app_assoc|].
    intros _. assert (l1 <> []) by (by apply Hr1). by destruct l1.
  - exists l1. split; [done|]. intros _. by apply Hr1.
  - exists l1. split; [done|]. intros H. by destruct (H e).
Qed.

Lemma talks_then_ends_talking {A B} (m : M A) (k : A -> M B) :
  talks m -> (∀ a, ends_talking (k a)) -> ends_talking (bind m k).
Proof.
  intros Hm Hk s. unfold bind. destruct (Hm s) as (l1 & Hl1 & Hr1).
  destruct (m s) as [[a| |e] s1]; cbn [fst snd] in *.
  - destruct (Hk a s1) as (l2 & Hl2 & Hr2). exists (l1 ++ l2).
    split; [by rewrite Hl2, Hl1, app_assoc|].
    intros Hr. specialize (Hr2 Hr). by destruct l1, l2.
  - exists l1. split; [done|]. intros _. by apply Hr1.
  - exists l1. split; [done|]. intros H. by destruct (H e).
Qed.

Lemma talks_try_except {A} (body : M A) handler :
  talks body -> (∀ e h, handler e = Some h -> talks h) ->
  talks (try_except body handler).
Proof.
  intros Hb Hh s. unfold try_except. destruct (Hb s) as (l1 & Hl1 & Hr1).
  destruct (body s) as [[a| |e] s1]; cbn [fst snd] in *.
  - by exists l1.
  - by exists l1.
  - destruct (handler e) as [h|] eqn:E; [|by exists l1].
    destruct (Hh e h E s1) as (l2 & Hl2 & Hr2). exists (l1 ++ l2).
    split; [by rewrite Hl2, Hl1, app_assoc|].
    intros Hr. specialize (Hr2 Hr). by destruct l1, l2.
Qed.

Lemma set_status_talks text : talks (set_status text).
Proof. apply quiet_talks. by intros [self w]. Qed.

Lemma copy2_talks src dst : talks (copy2 path_str src dst).
Proof.
  apply quiet_talks. intros [self w]. unfold copy2. cbn [fst snd].
  by destruct (files w !! src).
Qed.

Lemma write_text_talks p text : talks (write_text p text).
Proof. apply quiet_talks. by intros [self w]. Qed.

Lemma path_exists_talks p : talks (path_exists p).
Proof. apply quiet_talks. by intros [self w]. Qed.

Lemma getcwd_talks : talks getcwd.
Proof. apply quiet_talks. by intros [self w]. Qed.

Lemma get_selected_directory_talks : talks get_selected_directory.
Proof. apply quiet_talks. by intros [self w]. Qed.

Lemma chdir_talks directory : talks (chdir directory).
Proof. apply quiet_talks. by intros [self w]. Qed.

Lemma subprocess_run_talks r : talks (subprocess_run r).
Proof. apply quiet_talks. intros [self w]. by destruct r. Qed.

Lemma ret_talks {A} (a : A) : talks (ret a).
Proof. apply quiet_talks. by intros [self w]. Qed.

Lemma showerror_ends_talking title message :
  ends_talking (showerror title message).
Proof. apply dialog_ends_talking. intros [self w]. by eexists. Qed.

Lemma showinfo_ends_talking title message :
  ends_talking (showinfo title message).
Proof. apply dialog_ends_talking. intros [self w]. by eexists. Qed.

Lemma askyesno_ends_talking title message answer :
  ends_talking (askyesno title message answer).
Proof. apply dialog_ends_talking. intros [self w]. by eexists. Qed.

Lemma stage_talks temp f : talks (stage path_str temp f).
Proof.
  unfold stage.
  repeat (apply talks_bind; [|intros _]);
    auto using set_status_talks, copy2_talks, write_text_talks.
Qed.

Lemma run_makecab_talks env temp : talks (run_makecab env temp).
Proof.
  unfold run_makecab. apply talks_try_except.
  - apply talks_bind; [apply getcwd_talks|intros d].
    apply talks_bind; [apply chdir_talks|intros _].
    apply talks_bind; [apply subprocess_run_talks|intros _].
    apply chdir_talks.
  - intros [] h [= <-];
      apply ends_talking_talks, ends_talking_then;
      auto using showerror_ends_talking, @grows_return.
Qed.

Lemma finalize_ends_talking env temp f :
  ends_talking (finalize path_str env temp f).
Proof.
  unfold finalize. cbv zeta.
  apply talks_then_ends_talking; [apply set_status_talks|intros _].
  apply talks_then_ends_talking; [apply get_selected_directory_talks|intros d].
  apply talks_then_ends_talking; [apply path_exists_talks|intros present].
  apply talks_then_ends_talking; [|intros _].
  - destruct present; [|apply ret_talks].
    apply ends_talking_talks, ends_talking_then;
      [apply askyesno_ends_talking|intros yes].
    destruct yes; [apply talks_grows, ret_talks|].
    intros s. exists []. by rewrite app_nil_r.
  - apply talks_then_ends_talking; [apply copy2_talks|intros _].
    apply talks_then_ends_talking; [apply set_status_talks|intros _].
    apply showinfo_ends_talking.
Qed.

Lemma build_body_ends_talking env f :
  ends_talking (build_body path_str env f).
Proof.
  unfold build_body. cbv zeta.
  apply talks_then_ends_talking; [apply stage_talks|intros _].
  apply talks_then_ends_talking; [apply run_makecab_talks|intros _].
  apply finalize_ends_talking.
Qed.

End Talks.

(** X18.  A build that returns has told the user how it went: it has
    opened at least one dialog (an error, the overwrite question, or the
    success notice), after the dialogs opened before. *)
Theorem build_never_ends_silently path_str env self w
    (Hret : (build_ctx path_str env self w).1 = Returned) :
  ∃ opened,
    dialogs (build_ctx path_str env self w).2.1 = dialogs self ++ opened ∧
    opened <> [].
Proof.
  destruct (selected_set_index self) as [i|] eqn:Hsel.
  2:{ unfold build_ctx. rewrite Hsel. by eexists [_]. }
  destruct (file_sets self !! i) as [f|] eqn:Hf.
  2:{ unfold build_ctx in Hret. by rewrite Hsel, Hf in Hret. }
  destruct (build_body_ends_talking path_str env f
              (self, mkdtemp (temp_dir env) w)) as (l & Hl & Hne).
  destruct (build_body path_str env f (self, mkdtemp (temp_dir env) w))
    as [r [self1 w1]] eqn:Hb.
  rewrite (build_ctx_of_body _ _ _ _ _ _ _ _ _ Hsel Hf Hb).
  cbn [fst snd] in Hl, Hne.
  destruct (cleanup_refused env w1) as [msg|]; cbn [fst snd].
  - eexists (l ++ [_]). split; [cbn; by rewrite Hl, app_assoc|].
    by destruct l.
  - destruct r as [[]| |e].
    + exists l. split; [done|]. by apply Hne.
    + exists l. split; [done|]. by apply Hne.
    + eexists (l ++ [_]). split; [cbn; by rewrite Hl, app_assoc|].
      by destruct l.
Qed.

Lemma build_never_ends_silently_witness :
  ∃ opened,
    dialogs (build_ctx slash_str
               (leopard_env (Completed [("Leopard.cab", "cabinet")]) true)
               leopard_app (leopard_world None)).2.1
    = dialogs leopard_app ++ opened ∧
    opened <> [].
Proof.
  apply (build_never_ends_silently slash_str
           (leopard_env (Completed [("Leopard.cab", "cabinet")]) true)
           leopard_app (leopard_world None)).
  vm_compute. reflexivity.
Defined.


